(** * webeep-sync: the Moodle client ([src/moodle.ts])

    A shallow embedding of [MoodleClient] (the request method [call], its
    reconnect loop, [getUserID], [getCourses] and [getFileInfos]) together
    with the JavaScript primitives those methods rely on: dynamically typed
    JSON values, property access, the regular expression used to normalize
    course names and [path.join].

    Asynchronous methods are modelled as state-passing computations over the
    fields of the client and of the login manager.  The outside world (the
    web service and the person in front of the login window) is an
    environment indexed by the number of requests and login windows seen so
    far.  Recursion through [call] is bounded by a fuel argument; a
    computation that has not settled when the fuel is spent yields [None]. *)

From Stdlib Require Import Ascii String.
From Stdlib Require Import List ZArith NArith Bool Arith Lia.
Import ListNotations.

Set Implicit Arguments.
Set Warnings "-register-all".

(** ** Strings

    A JavaScript string is a sequence of UTF-16 code units. *)

Definition jsstring := list N.

Definition lit (s : String.string) : jsstring :=
  map N_of_ascii (list_ascii_of_string s).
Arguments lit s%_string.

Fixpoint str_eqb (a b : jsstring) : bool :=
  match a, b with
  | [], [] => true
  | x :: a', y :: b' => N.eqb x y && str_eqb a' b'
  | _, _ => false
  end.

Definition is_empty (s : jsstring) : bool :=
  match s with [] => true | _ :: _ => false end.

(** ** Values

    What [JSON.parse] can return, plus [undefined].  Numbers are the
    integers: the client only copies numbers or tests them against zero.
    The property list of an object holds its own properties, with distinct
    keys. *)

Inductive value : Type :=
| VUndefined
| VNull
| VBool (b : bool)
| VNum (n : Z)
| VStr (s : jsstring)
| VArr (elems : list value)
| VObj (props : list (jsstring * value)).

Inductive exn : Type :=
| RequestError   (* got.post rejects *)
| SyntaxError    (* JSON.parse rejects the body *)
| TypeError.

(** The completion of a computation that has finished. *)
Inductive completion (A : Type) : Type :=
| Return (a : A)
| Throw (e : exn).
Arguments Return {A} a.
Arguments Throw {A} e.

Definition cbind {A B} (c : completion A) (f : A -> completion B) : completion B :=
  match c with
  | Return a => f a
  | Throw e => Throw e
  end.

Declare Scope completion_scope.
Delimit Scope completion_scope with completion.
Notation "'let!' x ':=' c 'in' k" := (cbind c (fun x => k))
  (at level 10, x name, c at level 100, k at level 200)
  : completion_scope.

Fixpoint lookup (k : jsstring) (props : list (jsstring * value)) : value :=
  match props with
  | [] => VUndefined
  | (k', v) :: rest => if str_eqb k k' then v else lookup k rest
  end.

(** [v.k] for a property name [k] that no built-in prototype defines (every
    name the client reads is of that kind): reading from [undefined] or
    [null] throws, reading from any other primitive or from an array gives
    [undefined]. *)
Definition get_prop (v : value) (k : jsstring) : completion value :=
  match v with
  | VUndefined | VNull => Throw TypeError
  | VObj props => Return (lookup k props)
  | _ => Return VUndefined
  end.

(** [v === s] for a string literal [s]. *)
Definition is_str (v : value) (s : jsstring) : bool :=
  match v with
  | VStr x => str_eqb x s
  | _ => false
  end.

(** [!v] is [negb (truthy v)]. *)
Definition truthy (v : value) : bool :=
  match v with
  | VUndefined | VNull => false
  | VBool b => b
  | VNum n => negb (Z.eqb n 0)
  | VStr s => negb (is_empty s)
  | VArr _ | VObj _ => true
  end.

(** [v ?? ...] evaluates its right operand exactly when [nullish v]. *)
Definition nullish (v : value) : bool :=
  match v with
  | VUndefined | VNull => true
  | _ => false
  end.

(** The elements a [for ... of] loop visits.  A string is iterated by code
    point; the pieces are strings either way, which is all that a caller
    here can observe. *)
Definition iterate (v : value) : completion (list value) :=
  match v with
  | VArr l => Return l
  | VStr s => Return (map (fun c => VStr [c]) s)
  | _ => Throw TypeError
  end.

Fixpoint array_map {A B} (f : A -> completion B) (l : list A) : completion (list B) :=
  match l with
  | [] => Return []
  | x :: rest =>
      match f x with
      | Return y =>
          match array_map f rest with
          | Return ys => Return (y :: ys)
          | Throw e => Throw e
          end
      | Throw e => Throw e
      end
  end.

Fixpoint array_find {A} (p : A -> completion bool) (l : list A) : completion (option A) :=
  match l with
  | [] => Return None
  | x :: rest =>
      match p x with
      | Return true => Return (Some x)
      | Return false => array_find p rest
      | Throw e => Throw e
      end
  end.

(** ** Regular expressions

    The fragment of ECMAScript regular expressions that [getCourses] uses:
    single characters and greedy [+] over a character class, around one
    capture group.  Matching backtracks as the language prescribes: a greedy
    loop first tries to take one more character and falls back to its
    continuation when that fails. *)

Inductive cclass : Type :=
| CLit (c : N)
| CDigit          (* \d *)
| CDot.           (* .  *)

Definition is_line_terminator (c : N) : bool :=
  N.eqb c 10 || N.eqb c 13 || N.eqb c 8232 || N.eqb c 8233.

Definition is_digit (c : N) : bool := N.leb 48 c && N.leb c 57.

Definition cmatch (k : cclass) (c : N) : bool :=
  match k with
  | CLit x => N.eqb c x
  | CDigit => is_digit c
  | CDot => negb (is_line_terminator c)
  end.

Inductive item : Type :=
| One (k : cclass)
| Plus (k : cclass).

Record regex : Type := {
  before : list item;
  group : list item;     (* the contents of capture group 1 *)
  after : list item
}.

Section Matcher.
Variable R : Type.

Fixpoint plus_loop (k : cclass) (cont : jsstring -> option R) (s : jsstring) : option R :=
  match s with
  | [] => None
  | c :: s' =>
      if cmatch k c then
        match plus_loop k cont s' with
        | Some r => Some r
        | None => cont s'
        end
      else None
  end.

Fixpoint match_items (p : list item) (cont : jsstring -> option R) (s : jsstring) : option R :=
  match p with
  | [] => cont s
  | One k :: p' =>
      match s with
      | [] => None
      | c :: s' => if cmatch k c then match_items p' cont s' else None
      end
  | Plus k :: p' => plus_loop k (match_items p' cont) s
  end.
End Matcher.

(** A match that starts at the head of [s]; the result is capture 1. *)
Definition match_at (re : regex) (s : jsstring) : option jsstring :=
  match_items (before re)
    (fun s1 =>
       match_items (group re)
         (fun s2 =>
            match_items (after re)
              (fun _ => Some (firstn (length s1 - length s2) s1)) s2)
         s1)
    s.

(** [s.match(re)] for a regular expression without flags: the leftmost
    match, [None] for [null]. *)
Fixpoint str_match (re : regex) (s : jsstring) : option jsstring :=
  match match_at re s with
  | Some g => Some g
  | None =>
      match s with
      | [] => None
      | _ :: s' => str_match re s'
      end
  end.

(** [/\d+ - (.+) \(.+\)/] *)
Definition course_re : regex :=
  {| before := [Plus CDigit; One (CLit 32); One (CLit 45); One (CLit 32)];
     group := [Plus CDot];
     after := [One (CLit 32); One (CLit 40); Plus CDot; One (CLit 41)] |}.

(** ** [path.join]

    Node's [path.posix.join] for two arguments: empty arguments are skipped,
    the rest is joined with a slash and normalized segment by segment. *)

Definition slash : N := 47.
Definition dot : jsstring := [46%N].
Definition dotdot : jsstring := [46%N; 46%N].

Fixpoint split_slash (s : jsstring) (cur : jsstring) : list jsstring :=
  match s with
  | [] => [rev cur]
  | c :: s' =>
      if N.eqb c slash then rev cur :: split_slash s' []
      else split_slash s' (c :: cur)
  end.

(** One segment against the stack of kept segments (innermost first). *)
Definition normalize_step (allowAboveRoot : bool) (stack : list jsstring) (seg : jsstring)
  : list jsstring :=
  if is_empty seg || str_eqb seg dot then stack
  else if str_eqb seg dotdot then
    match stack with
    | top :: rest =>
        if str_eqb top dotdot
        then (if allowAboveRoot then dotdot :: stack else stack)
        else rest
    | [] => if allowAboveRoot then [dotdot] else []
    end
  else seg :: stack.

Fixpoint join_slash (segs : list jsstring) : jsstring :=
  match segs with
  | [] => []
  | [s] => s
  | s :: rest => s ++ slash :: join_slash rest
  end.

Definition normalizeString (path : jsstring) (allowAboveRoot : bool) : jsstring :=
  join_slash (rev (fold_left (normalize_step allowAboveRoot) (split_slash path []) [])).

Definition path_normalize (path : jsstring) : jsstring :=
  match path with
  | [] => dot
  | c :: _ =>
      let isAbsolute := N.eqb c slash in
      let trailingSeparator := N.eqb (last path 0%N) slash in
      let p := normalizeString path (negb isAbsolute) in
      match p with
      | [] => if isAbsolute then [slash]
              else if trailingSeparator then dot ++ [slash] else dot
      | _ :: _ =>
          let p' := if trailingSeparator then p ++ [slash] else p in
          if isAbsolute then slash :: p' else p'
      end
  end.

Definition path_join (a b : jsstring) : jsstring :=
  match a, b with
  | [], [] => dot
  | [], _ => path_normalize b
  | _, [] => path_normalize a
  | _, _ => path_normalize (a ++ slash :: b)
  end.

(** [path.join] validates its arguments: anything but a string throws. *)
Definition path_join_values (a b : value) : completion jsstring :=
  match a, b with
  | VStr x, VStr y => Return (path_join x y)
  | _, _ => Throw TypeError
  end.

(** ** The client and its surroundings *)

Record Course : Type := {
  id : value;
  name : jsstring
}.

Record FileInfo : Type := {
  filename : value;
  filepath : jsstring;
  filesize : value;
  fileurl : value;
  timecreated : value;
  timemodified : value
}.

(** The form posted to the web service: the token, the function name and
    the fields of [data] (the other form fields are constants). *)
Record request : Type := {
  wstoken : jsstring;
  wsfunction : jsstring;
  args : list (jsstring * value)
}.

(** What one [got.post] followed by [JSON.parse] comes to. *)
Inductive response : Type :=
| NetworkFailure            (* got.post rejects *)
| Malformed                 (* the body is not JSON *)
| Json (parsed : value).

(** Modelled from the spec: the login manager ([src/login.ts] is not among
    the sources).  It is the interactive authentication provider that
    supplies the bearer token and exposes a logged-in flag;
    [createLoginWindow] resolves to [true] when the person logs in, which
    stores the new token and raises the flag, and to [false] when the
    window is closed, which changes nothing. *)
Inductive login_outcome : Type :=
| LoginOk (newToken : jsstring)
| LoginClosed.

(** The [n]th request is answered by [server n], the [n]th login window is
    settled by [loginWindow n]. *)
Record Env : Type := {
  server : nat -> request -> response;
  loginWindow : nat -> login_outcome
}.

Inductive event : Type :=
| EvPost (r : request)
| EvLoginWindow
| EvConsoleLog (e : exn)
| EvEmit (name : jsstring) (payload : list value)
| EvSetTimeout (ms : Z).

Record World : Type := {
  (* MoodleClient *)
  userid : value;
  username : value;
  connected : bool;
  cachedCourses : list Course;
  (* loginManager *)
  isLogged : bool;
  token : jsstring;
  (* bookkeeping: requests and login windows so far, and what happened *)
  nreq : nat;
  nlogin : nat;
  log : list event
}.

(** A client fresh from its constructor. *)
Definition newClient (logged : bool) (tok : jsstring) : World :=
  {| userid := VUndefined; username := VUndefined; connected := true;
     cachedCourses := [];
     isLogged := logged; token := tok;
     nreq := 0; nlogin := 0; log := [] |}.

Definition with_userid (v : value) (w : World) : World :=
  {| userid := v; username := username w; connected := connected w;
     cachedCourses := cachedCourses w; isLogged := isLogged w; token := token w;
     nreq := nreq w; nlogin := nlogin w; log := log w |}.

Definition with_username (v : value) (w : World) : World :=
  {| userid := userid w; username := v; connected := connected w;
     cachedCourses := cachedCourses w; isLogged := isLogged w; token := token w;
     nreq := nreq w; nlogin := nlogin w; log := log w |}.

Definition with_connected (b : bool) (w : World) : World :=
  {| userid := userid w; username := username w; connected := b;
     cachedCourses := cachedCourses w; isLogged := isLogged w; token := token w;
     nreq := nreq w; nlogin := nlogin w; log := log w |}.

Definition with_cachedCourses (c : list Course) (w : World) : World :=
  {| userid := userid w; username := username w; connected := connected w;
     cachedCourses := c; isLogged := isLogged w; token := token w;
     nreq := nreq w; nlogin := nlogin w; log := log w |}.

Definition with_login (tok : jsstring) (w : World) : World :=
  {| userid := userid w; username := username w; connected := connected w;
     cachedCourses := cachedCourses w; isLogged := true; token := tok;
     nreq := nreq w; nlogin := nlogin w; log := log w |}.

Definition logged_event (e : event) (w : World) : World :=
  {| userid := userid w; username := username w; connected := connected w;
     cachedCourses := cachedCourses w; isLogged := isLogged w; token := token w;
     nreq := nreq w; nlogin := nlogin w; log := log w ++ [e] |}.

Definition count_request (w : World) : World :=
  {| userid := userid w; username := username w; connected := connected w;
     cachedCourses := cachedCourses w; isLogged := isLogged w; token := token w;
     nreq := S (nreq w); nlogin := nlogin w; log := log w |}.

Definition count_login (w : World) : World :=
  {| userid := userid w; username := username w; connected := connected w;
     cachedCourses := cachedCourses w; isLogged := isLogged w; token := token w;
     nreq := nreq w; nlogin := S (nlogin w); log := log w |}.

(** ** Asynchronous computations

    [None]: still pending when the fuel ran out. *)

Definition M (A : Type) : Type := World -> option (completion A * World).

Definition ret {A} (a : A) : M A := fun w => Some (Return a, w).
Definition throw {A} (e : exn) : M A := fun w => Some (Throw e, w).
Definition pending {A} : M A := fun _ => None.

Definition bind {A B} (m : M A) (f : A -> M B) : M B :=
  fun w =>
    match m w with
    | Some (Return a, w') => f a w'
    | Some (Throw e, w') => Some (Throw e, w')
    | None => None
    end.

(** [try { body } catch (e) { handler e }] *)
Definition try_catch {A} (body : M A) (handler : exn -> M A) : M A :=
  fun w =>
    match body w with
    | Some (Throw e, w') => handler e w'
    | r => r
    end.

Definition lift {A} (c : completion A) : M A := fun w => Some (c, w).
Definition gets {A} (f : World -> A) : M A := fun w => Some (Return (f w), w).
Definition modify (f : World -> World) : M unit := fun w => Some (Return tt, f w).

Declare Scope async_scope.
Delimit Scope async_scope with async.
Bind Scope async_scope with M.
Notation "x <- c ;; k" := (bind c (fun x => k))
  (at level 100, c at next level, right associativity) : async_scope.
Notation "c ;; k" := (bind c (fun _ => k))
  (at level 100, right associativity) : async_scope.
Open Scope async_scope.

Definition emit (name : jsstring) (payload : list value) : M unit :=
  modify (logged_event (EvEmit name payload)).
Definition console_log (e : exn) : M unit := modify (logged_event (EvConsoleLog e)).
Definition setTimeout (ms : Z) : M unit := modify (logged_event (EvSetTimeout ms)).

Section Client.
Variable env : Env.

(** [got.post(...)] and [JSON.parse(res.body)] *)
Definition post (wsfunction : jsstring) (data : list (jsstring * value)) : M value :=
  fun w =>
    let req := {| wstoken := token w; wsfunction := wsfunction; args := data |} in
    let w' := count_request (logged_event (EvPost req) w) in
    match server env (nreq w) req with
    | NetworkFailure => Some (Throw RequestError, w')
    | Malformed => Some (Throw SyntaxError, w')
    | Json parsed => Some (Return parsed, w')
    end.

(** [loginManager.createLoginWindow()] *)
Definition createLoginWindow : M bool :=
  fun w =>
    let w' := count_login (logged_event EvLoginWindow w) in
    match loginWindow env (nlogin w) with
    | LoginOk tok => Some (Return true, with_login tok w')
    | LoginClosed => Some (Return false, w')
    end.

(** [call] and the [tryConnection] closure of its reconnect promise. *)
Fixpoint call (fuel : nat) (wsfunction : jsstring) (data : list (jsstring * value))
         (catchNetworkError : bool) {struct fuel} : M value :=
  match fuel with
  | O => pending
  | S fuel' =>
      c <- gets connected ;;
      if negb c then ret VUndefined else
      l <- gets isLogged ;;
      if negb l then ret VUndefined else
      try_catch
        (parsed <- post wsfunction data ;;
         errorcode <- lift (get_prop parsed (lit "errorcode")) ;;
         if is_str errorcode (lit "invalidtoken") then
           logged <- createLoginWindow ;;
           if (logged : bool) then call fuel' wsfunction data true
           else ret VUndefined
         else ret parsed)
        (fun e =>
           console_log e ;;
           if catchNetworkError then
             modify (with_connected false) ;;
             emit (lit "disconnected") [] ;;
             emit (lit "network_event") [VBool false] ;;
             tryConnection fuel' wsfunction data
           else throw e)
  end
with tryConnection (fuel : nat) (wsfunction : jsstring) (data : list (jsstring * value))
       {struct fuel} : M value :=
  match fuel with
  | O => pending
  | S fuel' =>
      try_catch
        (v <- call fuel' wsfunction data false ;;
         (* resolve(v) *)
         modify (with_connected true) ;;
         emit (lit "reconnected") [] ;;
         emit (lit "network_event") [VBool true] ;;
         ret v)
        (fun _ =>
           setTimeout 5000 ;;
           tryConnection fuel' wsfunction data)
  end.

Definition getUserID (fuel : nat) : M value :=
  res <- call fuel (lit "core_webservice_get_site_info") [] true ;;
  userid <- lift (get_prop res (lit "userid")) ;;
  fullname <- lift (get_prop res (lit "fullname")) ;;
  modify (with_username fullname) ;;
  emit (lit "username") [fullname] ;;
  modify (with_userid userid) ;;
  ret userid.

(** The display name after [name.match(...)] and [if (m) name = m[1]]. *)
Definition normalize_name (fullname : jsstring) : jsstring :=
  match str_match course_re fullname with
  | Some m1 => m1
  | None => fullname
  end.

(** The callback of [courses.map]; [name.match] exists on strings only. *)
Definition to_course (c : value) : completion Course :=
  (let! id := get_prop c (lit "id") in
   let! fullname := get_prop c (lit "fullname") in
   match fullname with
   | VStr name => Return {| id := id; name := normalize_name name |}
   | _ => Throw TypeError
   end)%completion.

(** The body of the [try] block of [getCourses] up to the value of [c];
    [courses.map] exists on arrays only. *)
Definition fetchCourses (fuel : nat) (userid : value) : M (list Course) :=
  courses <- call fuel (lit "core_enrol_get_users_courses")
               [(lit "userid", userid)] false ;;
  match courses with
  | VArr l => lift (array_map to_course l)
  | _ => throw TypeError
  end.

Definition getCourses (fuel : nat) : M (list Course) :=
  u <- gets userid ;;
  userid <- (if nullish u then getUserID fuel else ret u) ;;
  try_catch
    (c <- fetchCourses fuel userid ;;
     modify (with_cachedCourses c) ;;
     ret c)
    (fun _ => gets cachedCourses).
End Client.

(** ** [getFileInfos] *)

(** The name [getFileInfos] looks for among the sections of a course. *)
Definition materials : jsstring := lit "Materiali".

(** [c => c.name === 'Materiali'] *)
Definition is_materials (c : value) : completion bool :=
  (let! n := get_prop c (lit "name") in Return (is_str n materials))%completion.

(** The inner loop, [for (const file of contents)], pushing onto [files]. *)
Fixpoint for_files (modulename : value) (contents : list value) (files : list FileInfo)
  : completion (list FileInfo) :=
  match contents with
  | [] => Return files
  | file :: rest =>
      (let! type := get_prop file (lit "type") in
       if is_str type (lit "file") then
         let! filename := get_prop file (lit "filename") in
         let! filepath := get_prop file (lit "filepath") in
         let! filesize := get_prop file (lit "filesize") in
         let! fileurl := get_prop file (lit "fileurl") in
         let! timecreated := get_prop file (lit "timecreated") in
         let! timemodified := get_prop file (lit "timemodified") in
         let! filepath := path_join_values modulename filepath in
         for_files modulename rest
           (files ++ [{| filename := filename; filepath := filepath;
                         filesize := filesize; fileurl := fileurl;
                         timecreated := timecreated;
                         timemodified := timemodified |}])
       else for_files modulename rest files)%completion
  end.

(** The outer loop, [for (const module of mat.modules)]. *)
Fixpoint for_modules (modules : list value) (files : list FileInfo)
  : completion (list FileInfo) :=
  match modules with
  | [] => Return files
  | module :: rest =>
      (let! modulename := get_prop module (lit "name") in
       let! contents := get_prop module (lit "contents") in
       if negb (truthy contents) then for_modules rest files
       else
         let! entries := iterate contents in
         let! files := for_files modulename entries files in
         for_modules rest files)%completion
  end.

(** Everything [getFileInfos] does with the value [call] gave it;
    [contents.find] exists on arrays only. *)
Definition files_of_contents (contents : value) : completion (list FileInfo) :=
  match contents with
  | VArr sections =>
      (let! mat := array_find is_materials sections in
       match mat with
       | None => Return []
       | Some mat =>
           let! modules := get_prop mat (lit "modules") in
           let! modules := iterate modules in
           for_modules modules []
       end)%completion
  | _ => Throw TypeError
  end.

Definition getFileInfos (env : Env) (fuel : nat) (courseid : Z) : M (list FileInfo) :=
  contents <- call env fuel (lit "core_course_get_contents")
                [(lit "courseid", VNum courseid)] true ;;
  lift (files_of_contents contents).

(** ** Well-typed course contents

    The declared type [Contents] and the JSON a value of that type is the
    parse of. *)

Record ContentEntry : Type := {
  e_type : jsstring;
  e_filename : jsstring;
  e_filepath : jsstring;
  e_filesize : Z;
  e_fileurl : jsstring;
  e_timecreated : Z;
  e_timemodified : Z
}.

Record ModuleEntry : Type := {
  m_id : Z;
  m_name : jsstring;
  m_contents : option (list ContentEntry)     (* contents?: ... *)
}.

Record SectionEntry : Type := {
  s_id : Z;
  s_name : jsstring;
  s_modules : list ModuleEntry
}.

Definition Contents : Type := list SectionEntry.

Definition json_of_entry (e : ContentEntry) : value :=
  VObj [(lit "type", VStr (e_type e));
        (lit "filename", VStr (e_filename e));
        (lit "filepath", VStr (e_filepath e));
        (lit "filesize", VNum (e_filesize e));
        (lit "fileurl", VStr (e_fileurl e));
        (lit "timecreated", VNum (e_timecreated e));
        (lit "timemodified", VNum (e_timemodified e))].

Definition json_of_module (m : ModuleEntry) : value :=
  VObj ([(lit "id", VNum (m_id m)); (lit "name", VStr (m_name m))]
        ++ match m_contents m with
           | Some es => [(lit "contents", VArr (map json_of_entry es))]
           | None => []
           end).

Definition json_of_section (s : SectionEntry) : value :=
  VObj [(lit "id", VNum (s_id s));
        (lit "name", VStr (s_name s));
        (lit "modules", VArr (map json_of_module (s_modules s)))].

Definition json_of_contents (cs : Contents) : value :=
  VArr (map json_of_section cs).

(** The file a content entry of module [modulename] stands for. *)
Definition file_of_entry (modulename : jsstring) (e : ContentEntry) : FileInfo :=
  {| filename := VStr (e_filename e);
     filepath := path_join modulename (e_filepath e);
     filesize := VNum (e_filesize e);
     fileurl := VStr (e_fileurl e);
     timecreated := VNum (e_timecreated e);
     timemodified := VNum (e_timemodified e) |}.

Definition is_file (e : ContentEntry) : bool := str_eqb (e_type e) (lit "file").

Definition files_of_module (m : ModuleEntry) : list FileInfo :=
  match m_contents m with
  | Some es => map (file_of_entry (m_name m)) (filter is_file es)
  | None => []
  end.

Definition is_materials_section (s : SectionEntry) : bool := str_eqb (s_name s) materials.

(** The files of the first section called [materials], module by module. *)
Definition materials_files (cs : Contents) : list FileInfo :=
  match find is_materials_section cs with
  | Some mat => flat_map files_of_module (s_modules mat)
  | None => []
  end.

(** ** Vocabulary of the statements *)

(** The form a request made in state [w] carries. *)
Definition request_of (w : World) (wsfunction : jsstring) (data : list (jsstring * value))
  : request :=
  {| wstoken := token w; wsfunction := wsfunction; args := data |}.

(** The state [call] leaves behind when its request fails at the network
    level and [catchNetworkError] is set. *)
Definition after_network_failure (w : World) (req : request) : World :=
  logged_event (EvEmit (lit "network_event") [VBool true])
    (logged_event (EvEmit (lit "reconnected") [])
       (with_connected true
          (logged_event (EvEmit (lit "network_event") [VBool false])
             (logged_event (EvEmit (lit "disconnected") [])
                (with_connected false
                   (logged_event (EvConsoleLog RequestError)
                      (count_request (logged_event (EvPost req) w)))))))).

(** A reply whose body carries the error code [invalidtoken]. *)
Definition invalid_token (r : response) : bool :=
  match r with
  | Json parsed =>
      match get_prop parsed (lit "errorcode") with
      | Return errorcode => is_str errorcode (lit "invalidtoken")
      | Throw _ => false
      end
  | _ => false
  end.

(** A reply that [call] hands to its caller: a body that parses, lets
    [errorcode] be read and is not an invalid-token error. *)
Definition answer (r : response) : option value :=
  match r with
  | Json parsed =>
      match get_prop parsed (lit "errorcode") with
      | Return errorcode =>
          if is_str errorcode (lit "invalidtoken") then None else Some parsed
      | Throw _ => None
      end
  | _ => None
  end.

Definition login_succeeds (o : login_outcome) : bool :=
  match o with
  | LoginOk _ => true
  | LoginClosed => false
  end.

(** The state after one request answered with [invalidtoken] and a login
    that delivered [tok]. *)
Definition after_relogin (w : World) (req : request) (tok : jsstring) : World :=
  with_login tok
    (count_login (logged_event EvLoginWindow
       (count_request (logged_event (EvPost req) w)))).

(** The state after one request answered with [invalidtoken] and a login
    window that was closed. *)
Definition after_closed_login (w : World) (req : request) : World :=
  count_login (logged_event EvLoginWindow
    (count_request (logged_event (EvPost req) w))).

Definition after_request (w : World) (req : request) : World :=
  count_request (logged_event (EvPost req) w).

(** The token in force when a call that started in [w] sends its [i]th
    retry: the token of [w] at first, afterwards the token that the latest
    login delivered (a login window that is closed leaves the token as it
    was). *)
Fixpoint token_at (env : Env) (w : World) (i : nat) : jsstring :=
  match i with
  | 0 => token w
  | S j =>
      match loginWindow env (nlogin w + j) with
      | LoginOk tok => tok
      | LoginClosed => token_at env w j
      end
  end.

(** The form that the [i]th retry carries. *)
Definition request_at (env : Env) (w : World) (wsfunction : jsstring)
           (data : list (jsstring * value)) (i : nat) : request :=
  {| wstoken := token_at env w i; wsfunction := wsfunction; args := data |}.

(** [inv I m]: when [m] settles from a state in [I], it settles in [I]. *)
Definition inv {A} (I : World -> Prop) (m : M A) : Prop :=
  forall w r w', I w -> m w = Some (r, w') -> I w'.

(** Nothing but the assignment in [getCourses] touches the course cache. *)
Definition cache_is (cs : list Course) (w : World) : Prop := cachedCourses w = cs.

(** [no_throw m]: [m] never completes by throwing. *)
Definition no_throw {A} (m : M A) : Prop :=
  forall w e w', m w <> Some (Throw e, w').

(** ** Scenarios for the network *)

Definition invalid_token_body : value :=
  VObj [(lit "exception", VStr (lit "moodle_exception"));
        (lit "errorcode", VStr (lit "invalidtoken"));
        (lit "message", VStr (lit "Invalid token - token not found"))].

(** A service that is unreachable. *)
Definition env_down : Env :=
  {| server := fun _ _ => NetworkFailure;
     loginWindow := fun _ => LoginClosed |}.

(** A service that rejects the token twice and then answers with an empty
    array, in front of a person who logs in every time. *)
Definition env_expired_twice : Env :=
  {| server := fun n _ =>
                 match n with
                 | 0 | 1 => Json invalid_token_body
                 | _ => Json (VArr [])
                 end;
     loginWindow := fun _ => LoginOk (lit "fresh") |}.

(** A service that looks at the token it is sent: it lists no course for
    the token ["valid"] and rejects every other token; in front of a person
    whose first login delivers a token that has expired already and whose
    second login delivers the valid one. *)
Definition env_token_checked : Env :=
  {| server := fun _ req =>
                 if str_eqb (wstoken req) (lit "valid") then Json (VArr [])
                 else Json invalid_token_body;
     loginWindow := fun n =>
                      match n with
                      | 0 => LoginOk (lit "stale")
                      | _ => LoginOk (lit "valid")
                      end |}.

Definition logged_in : World := newClient true (lit "token").
Definition logged_out : World := newClient false [].

(** ** Display names *)

(** ["<digits> - <name> (<suffix>)"] *)
Definition course_shape (digits name suffix : jsstring) : jsstring :=
  digits ++ lit " - " ++ name ++ lit " (" ++ suffix ++ lit ")".

Definition all_digits (s : jsstring) : bool := forallb is_digit s.

(** No line terminator: every character is one that [.] matches. *)
Definition one_line (s : jsstring) : bool := forallb (cmatch CDot) s.

(** A space followed by an opening parenthesis somewhere in [s]. *)
Fixpoint has_space_paren (s : jsstring) : bool :=
  match s with
  | [] => false
  | c :: s' =>
      (N.eqb c 32 && match s' with d :: _ => N.eqb d 40 | [] => false end)
      || has_space_paren s'
  end.

(** Some substring of [s] has the shape of [course_re]. *)
Definition pattern_occurs (s : jsstring) : Prop :=
  exists p d n x z,
    d <> [] /\ all_digits d = true /\
    n <> [] /\ one_line n = true /\
    x <> [] /\ one_line x = true /\
    s = p ++ course_shape d n x ++ z.

(** An enrolled course as the service lists it. *)
Definition course_json (i : Z) (fullname : jsstring) : value :=
  VObj [(lit "id", VNum i); (lit "fullname", VStr fullname)].

(** A client that already knows its user id. *)
Definition known_user : World := with_userid (VNum 42) logged_in.

(** ** Scenarios for course contents *)

Definition slides : ContentEntry :=
  {| e_type := lit "file"; e_filename := lit "slides.pdf"; e_filepath := [];
     e_filesize := 1024; e_fileurl := lit "https://webeep.polimi.it/slides.pdf";
     e_timecreated := 1; e_timemodified := 2 |}.

Definition recording : ContentEntry :=
  {| e_type := lit "url"; e_filename := lit "recording"; e_filepath := [];
     e_filesize := 0; e_fileurl := lit "https://webeep.polimi.it/recording";
     e_timecreated := 1; e_timemodified := 2 |}.

Definition lecture_contents : Contents :=
  [{| s_id := 1; s_name := lit "Forum"; s_modules := [] |};
   {| s_id := 2; s_name := materials;
      s_modules := [{| m_id := 10; m_name := lit "Lecture 1";
                       m_contents := Some [slides; recording] |};
                    {| m_id := 11; m_name := lit "Notes"; m_contents := None |}] |}].

Definition forum_contents : Contents :=
  [{| s_id := 1; s_name := lit "Forum"; s_modules := [] |}].

(** Course contents whose only section is named ["Materials"], with the
    module ["Lecture 1"] and its one file in it. *)
Definition english_contents : Contents :=
  [{| s_id := 1; s_name := lit "Materials";
      s_modules := [{| m_id := 10; m_name := lit "Lecture 1";
                       m_contents := Some [slides] |}] |}].

(** A service that answers every request with the same course contents. *)
Definition env_contents (cs : Contents) : Env :=
  {| server := fun _ _ => Json (json_of_contents cs);
     loginWindow := fun _ => LoginClosed |}.

(** A service that knows the user and then becomes unreachable. *)
Definition env_site_info_only : Env :=
  {| server := fun n _ =>
                 match n with
                 | 0 => Json (VObj [(lit "userid", VNum 42);
                                    (lit "fullname", VStr (lit "Ada Lovelace"))])
                 | _ => NetworkFailure
                 end;
     loginWindow := fun _ => LoginClosed |}.

(** A service that lists one enrolled course. *)
Definition env_courses : Env :=
  {| server := fun _ _ =>
                 Json (VArr [course_json 7 (lit "2023 - Systems Programming (SP)")]);
     loginWindow := fun _ => LoginClosed |}.

(** ** Vocabulary of the further properties *)

(** The exception that the reply to a request raises inside the [try]
    block of [call], before any login window: [got.post] rejecting,
    [JSON.parse] rejecting, or [errorcode] read off [null]. *)
Definition failure_of (r : response) : option exn :=
  match r with
  | NetworkFailure => Some RequestError
  | Malformed => Some SyntaxError
  | Json parsed =>
      match get_prop parsed (lit "errorcode") with
      | Throw e => Some e
      | Return _ => None
      end
  end.

(** The state [call] leaves behind when its [try] block throws [e] on the
    first request and [catchNetworkError] is set. *)
Definition after_caught_failure (w : World) (req : request) (e : exn) : World :=
  logged_event (EvEmit (lit "network_event") [VBool true])
    (logged_event (EvEmit (lit "reconnected") [])
       (with_connected true
          (logged_event (EvEmit (lit "network_event") [VBool false])
             (logged_event (EvEmit (lit "disconnected") [])
                (with_connected false
                   (logged_event (EvConsoleLog e)
                      (count_request (logged_event (EvPost req) w)))))))).

(** The fields of the client that only [getUserID] and [getCourses] write. *)
Definition client_data_is (u n : value) (cs : list Course) (w : World) : Prop :=
  userid w = u /\ username w = n /\ cachedCourses w = cs.

(** A service whose first reply is not JSON. *)
Definition env_garbled : Env :=
  {| server := fun n _ => match n with 0 => Malformed | _ => Json (VArr []) end;
     loginWindow := fun _ => LoginClosed |}.

(** A service that rejects the token once and is unreachable afterwards, in
    front of a person who logs in. *)
Definition env_expired_then_down : Env :=
  {| server := fun n _ =>
                 match n with
                 | 0 => Json invalid_token_body
                 | _ => NetworkFailure
                 end;
     loginWindow := fun _ => LoginOk (lit "fresh") |}.

(** A service that answers every request with an access error. *)
Definition access_error_body : value :=
  VObj [(lit "exception", VStr (lit "webservice_access_exception"));
        (lit "errorcode", VStr (lit "accessexception"));
        (lit "message", VStr (lit "Access control exception"))].

Definition env_access_error : Env :=
  {| server := fun _ _ => Json access_error_body;
     loginWindow := fun _ => LoginClosed |}.

(** Enrolled courses as rows of id and display name, and the course each
    row stands for. *)
Definition json_of_row (r : Z * jsstring) : value := course_json (fst r) (snd r).

Definition course_of_row (r : Z * jsstring) : Course :=
  {| id := VNum (fst r); name := normalize_name (snd r) |}.

(** A service that knows the user and then lists one enrolled course. *)
Definition env_site_info_then_courses : Env :=
  {| server := fun n _ =>
                 match n with
                 | 0 => Json (VObj [(lit "userid", VNum 42);
                                    (lit "fullname", VStr (lit "Ada Lovelace"))])
                 | _ => Json (VArr [course_json 7 (lit "2023 - Systems Programming (SP)")])
                 end;
     loginWindow := fun _ => LoginClosed |}.

(** A service that lists two courses, the second without a display name. *)
Definition env_nameless_course : Env :=
  {| server := fun _ _ =>
                 Json (VArr [course_json 7 (lit "2023 - Systems Programming (SP)");
                             VObj [(lit "id", VNum 8)]]);
     loginWindow := fun _ => LoginClosed |}.

(** A client that knows its user id and has one course cached. *)
Definition cached_user : World :=
  with_cachedCourses [{| id := VNum 7; name := lit "Systems Programming" |}] known_user.

(** A computation that, when it throws, throws a [TypeError]. *)
Definition only_TypeError {A} (c : completion A) : Prop :=
  forall e, c = Throw e -> e = TypeError.

(** Course contents with two sections called [materials]. *)
Definition twice_materials : Contents :=
  [{| s_id := 1; s_name := lit "Forum"; s_modules := [] |};
   {| s_id := 2; s_name := materials;
      s_modules := [{| m_id := 10; m_name := lit "Lecture 1";
                       m_contents := Some [slides] |}] |};
   {| s_id := 3; s_name := materials;
      s_modules := [{| m_id := 11; m_name := lit "Lecture 2";
                       m_contents := Some [slides] |}] |}].

(** A path segment that [path.join] keeps as it is: not empty, without a
    slash, and neither ["."] nor [".."]. *)
Definition plain_segment (s : jsstring) : Prop :=
  s <> [] /\ ~ In slash s /\ s <> dot /\ s <> dotdot.

(** No character of [s] is a digit. *)
Definition no_digit (s : jsstring) : bool := forallb (fun c => negb (is_digit c)) s.

(** ** The main process ([src/index.ts])

    The settings object of the store is modelled by its property list, as
    objects are throughout. *)

Definition props : Type := list (jsstring * value).

(** [k in o], for own properties. *)
Definition has_key (k : jsstring) (o : props) : bool :=
  existsb (fun kv => str_eqb k (fst kv)) o.

(** [o[k] = v]: an existing property keeps its place, a new one goes last. *)
Fixpoint set_prop (k : jsstring) (v : value) (o : props) : props :=
  match o with
  | [] => [(k, v)]
  | (k', v') :: rest =>
      if str_eqb k k' then (k, v) :: rest else (k', v') :: set_prop k v rest
  end.

(** [delete o.k] *)
Definition delete_prop (k : jsstring) (o : props) : props :=
  filter (fun kv => negb (str_eqb k (fst kv))) o.

(** [{ ...target, ...source }], given the properties copied so far. *)
Definition spread (target source : props) : props :=
  fold_left (fun acc kv => set_prop (fst kv) (snd kv) acc) source target.

(** The handler of ['settings']: a copy of the settings without the three
    that the settings menu does not manage. *)
Definition settings_handler (settings : props) : props :=
  let settingsCopy := spread [] settings in
  let settingsCopy := delete_prop (lit "autosyncEnabled") settingsCopy in
  let settingsCopy := delete_prop (lit "downloadPath") settingsCopy in
  let settingsCopy := delete_prop (lit "autosyncInterval") settingsCopy in
  settingsCopy.

(** A launch item as [app.getLoginItemSettings] reports it; only [enabled]
    is read. *)
Record LaunchItem : Type := { enabled : bool }.

(** [!(launchItems?.reduce((d, i) => i.enabled && d, true) ?? true)] *)
Definition launch_disabled (launchItems : option (list LaunchItem)) : bool :=
  negb (match launchItems with
        | Some items => fold_left (fun d i => enabled i && d) items true
        | None => true
        end).

(** What the main process does to the tray icon. *)
Inductive tray_event : Type :=
| TraySetUp        (* setupTray() *)
| TrayDestroyed.   (* tray.destroy(); tray = null *)

(** [settings.keepOpenInBackground && settings.trayIcon], as a condition. *)
Definition wants_tray (settings : props) : bool :=
  truthy (lookup (lit "keepOpenInBackground") settings)
  && truthy (lookup (lit "trayIcon") settings).

(** The settings and the tray of the main process; [tray] is [false] for
    [null]. *)
Record Shell : Type := {
  settings : props;
  tray : bool;
  tray_events : list tray_event
}.

(** The part of the ['ready'] handler that touches the tray and the
    settings: the tray is set up if the settings ask for it, and
    [openAtLogin] is cleared when a launch item was disabled.  The tray is
    [null] before. *)
Definition on_ready (launchItems : option (list LaunchItem)) (stored : props) : Shell :=
  let setup := wants_tray stored in
  {| settings := if launch_disabled launchItems
                 then set_prop (lit "openAtLogin") (VBool false) stored
                 else stored;
     tray := setup;
     tray_events := if setup then [TraySetUp] else [] |}.

(** The part of the ['set-settings'] handler that touches the tray and the
    settings: the new settings are merged into the stored ones, then the
    tray is destroyed or set up to follow them. *)
Definition on_set_settings (sh : Shell) (newSettings : props) : Shell :=
  let merged := spread (spread [] (settings sh)) newSettings in
  let keepOpenInBackground := truthy (lookup (lit "keepOpenInBackground") merged) in
  let trayIcon := truthy (lookup (lit "trayIcon") merged) in
  if (negb keepOpenInBackground || negb trayIcon) && tray sh then
    {| settings := merged; tray := false;
       tray_events := tray_events sh ++ [TrayDestroyed] |}
  else if keepOpenInBackground && trayIcon && negb (tray sh) then
    {| settings := merged; tray := true;
       tray_events := tray_events sh ++ [TraySetUp] |}
  else
    {| settings := merged; tray := tray sh; tray_events := tray_events sh |}.

(** Whether a tray exists after the events [evs], starting from [t];
    [None] when a tray is set up while one exists or destroyed while none
    does. *)
Fixpoint replay_tray (t : bool) (evs : list tray_event) : option bool :=
  match evs with
  | [] => Some t
  | TraySetUp :: rest => if t then None else replay_tray true rest
  | TrayDestroyed :: rest => if t then replay_tray false rest else None
  end.

(** Settings for the scenarios. *)
Definition stored_settings : props :=
  [(lit "language", VStr (lit "it"));
   (lit "keepOpenInBackground", VBool true);
   (lit "trayIcon", VBool false);
   (lit "autosyncEnabled", VBool true);
   (lit "downloadPath", VStr (lit "/home/ada/webeep"));
   (lit "autosyncInterval", VNum 3600000);
   (lit "openAtLogin", VBool true)].

(** The settings that the handler of ['settings'] leaves out. *)
Definition unmanaged (k : jsstring) : bool :=
  str_eqb k (lit "autosyncEnabled")
  || str_eqb k (lit "downloadPath")
  || str_eqb k (lit "autosyncInterval").

(** No two properties of [o] have the same key, as in every object. *)
Fixpoint distinct_keys (o : props) : bool :=
  match o with
  | [] => true
  | (k, _) :: rest => negb (has_key k rest) && distinct_keys rest
  end.

(** The tray follows the settings, and was never set up twice in a row or
    destroyed while missing. *)
Definition tray_consistent (sh : Shell) : Prop :=
  tray sh = wants_tray (settings sh) /\
  replay_tray false (tray_events sh) = Some (tray sh).

(** ** Basic facts *)

Lemma str_eqb_refl (a : jsstring) : str_eqb a a = true.
Proof.
  induction a as [|x a IH]; simpl; [reflexivity|].
  now rewrite N.eqb_refl, IH.
Qed.

Lemma str_eqb_eq (a b : jsstring) : str_eqb a b = true <-> a = b.
Proof.
  split.
  - revert b. induction a as [|x a IH]; intros [|y b] H; simpl in H;
      try reflexivity; try discriminate.
    apply andb_true_iff in H. destruct H as [Hx Hab].
    apply N.eqb_eq in Hx. apply IH in Hab. now subst.
  - intros ->. apply str_eqb_refl.
Qed.

Lemma str_eqb_neq (a b : jsstring) : a <> b -> str_eqb a b = false.
Proof.
  intros H. destruct (str_eqb a b) eqn:E; [|reflexivity].
  apply str_eqb_eq in E. contradiction.
Qed.

(** The two defining equations of [call] and [tryConnection]. *)

Lemma call_S env fuel ws data c :
  call env (S fuel) ws data c =
  (co <- gets connected ;;
   if negb co then ret VUndefined else
   l <- gets isLogged ;;
   if negb l then ret VUndefined else
   try_catch
     (parsed <- post env ws data ;;
      errorcode <- lift (get_prop parsed (lit "errorcode")) ;;
      if is_str errorcode (lit "invalidtoken") then
        logged <- createLoginWindow env ;;
        if (logged : bool) then call env fuel ws data true
        else ret VUndefined
      else ret parsed)
     (fun e =>
        console_log e ;;
        if c then
          modify (with_connected false) ;;
          emit (lit "disconnected") [] ;;
          emit (lit "network_event") [VBool false] ;;
          tryConnection env fuel ws data
        else throw e)).
Proof. reflexivity. Qed.

Lemma tryConnection_S env fuel ws data :
  tryConnection env (S fuel) ws data =
  try_catch
    (v <- call env fuel ws data false ;;
     modify (with_connected true) ;;
     emit (lit "reconnected") [] ;;
     emit (lit "network_event") [VBool true] ;;
     ret v)
    (fun _ => setTimeout 5000 ;; tryConnection env fuel ws data).
Proof. reflexivity. Qed.

(** A call made while disconnected or logged out settles at once and leaves
    every field, counter and log entry as it was. *)
Lemma call_guard env fuel ws data c w :
  connected w = false \/ isLogged w = false ->
  call env (S fuel) ws data c w = Some (Return VUndefined, w).
Proof.
  intros H. rewrite call_S. unfold bind, gets, ret.
  destruct (connected w); simpl; [|reflexivity].
  destruct H as [H|H]; [discriminate|]. rewrite H. reflexivity.
Qed.

(** How [bind] and [try_catch] run on the primitive computations. *)

Lemma bind_gets {A B} (f : World -> A) (k : A -> M B) w :
  bind (gets f) k w = k (f w) w.
Proof. reflexivity. Qed.

Lemma bind_modify {B} (f : World -> World) (k : unit -> M B) w :
  bind (modify f) k w = k tt (f w).
Proof. reflexivity. Qed.

Lemma bind_ret {A B} (a : A) (k : A -> M B) w : bind (ret a) k w = k a w.
Proof. reflexivity. Qed.

Lemma bind_lift_return {A B} (a : A) (k : A -> M B) w :
  bind (lift (Return a)) k w = k a w.
Proof. reflexivity. Qed.

Lemma bind_lift_throw {A B} (e : exn) (k : A -> M B) w :
  bind (lift (Throw e)) k w = Some (Throw e, w).
Proof. reflexivity. Qed.

Lemma bind_post {B} env ws data (k : value -> M B) w :
  bind (post env ws data) k w =
  let w' := count_request (logged_event (EvPost (request_of w ws data)) w) in
  match server env (nreq w) (request_of w ws data) with
  | NetworkFailure => Some (Throw RequestError, w')
  | Malformed => Some (Throw SyntaxError, w')
  | Json parsed => k parsed w'
  end.
Proof.
  unfold bind, post, request_of.
  destruct (server env (nreq w) _); reflexivity.
Qed.

Lemma bind_createLoginWindow {B} env (k : bool -> M B) w :
  bind (createLoginWindow env) k w =
  let w' := count_login (logged_event EvLoginWindow w) in
  match loginWindow env (nlogin w) with
  | LoginOk tok => k true (with_login tok w')
  | LoginClosed => k false w'
  end.
Proof.
  unfold bind, createLoginWindow.
  destruct (loginWindow env (nlogin w)); reflexivity.
Qed.

(** Past its two guards, [call] is its [try] statement. *)
Lemma call_ready env fuel ws data c w :
  connected w = true ->
  isLogged w = true ->
  call env (S fuel) ws data c w =
  try_catch
    (parsed <- post env ws data ;;
     errorcode <- lift (get_prop parsed (lit "errorcode")) ;;
     if is_str errorcode (lit "invalidtoken") then
       logged <- createLoginWindow env ;;
       if (logged : bool) then call env fuel ws data true
       else ret VUndefined
     else ret parsed)
    (fun e =>
       console_log e ;;
       if c then
         modify (with_connected false) ;;
         emit (lit "disconnected") [] ;;
         emit (lit "network_event") [VBool false] ;;
         tryConnection env fuel ws data
       else throw e) w.
Proof.
  intros Hc Hl. rewrite call_S. rewrite bind_gets, Hc. cbn [negb].
  rewrite bind_gets, Hl. reflexivity.
Qed.

(** ** A request that fails at the network level *)

Lemma call_network_failure_run env fuel ws data w :
  connected w = true ->
  isLogged w = true ->
  server env (nreq w) (request_of w ws data) = NetworkFailure ->
  call env (S (S (S fuel))) ws data true w =
  Some (Return VUndefined, after_network_failure w (request_of w ws data)).
Proof.
  intros Hc Hl Hs. rewrite call_ready by assumption.
  unfold try_catch. rewrite bind_post, Hs. cbv zeta. cbv iota.
  unfold console_log, emit. rewrite !bind_modify.
  rewrite tryConnection_S. unfold try_catch.
  unfold bind at 1. rewrite call_guard by (left; reflexivity).
  reflexivity.
Qed.

(** ** Invariants of asynchronous computations *)

Section Inv.
Variable I : World -> Prop.

Lemma inv_ret {A} (a : A) : inv I (ret a).
Proof. intros w r w' Hw H. inversion H; subst. exact Hw. Qed.

Lemma inv_throw {A} (e : exn) : inv I (@throw A e).
Proof. intros w r w' Hw H. inversion H; subst. exact Hw. Qed.

Lemma inv_pending {A} : inv I (@pending A).
Proof. intros w r w' Hw H. discriminate. Qed.

Lemma inv_lift {A} (c : completion A) : inv I (lift c).
Proof. intros w r w' Hw H. inversion H; subst. exact Hw. Qed.

Lemma inv_gets {A} (f : World -> A) : inv I (gets f).
Proof. intros w r w' Hw H. inversion H; subst. exact Hw. Qed.

Lemma inv_modify (f : World -> World) :
  (forall w, I w -> I (f w)) -> inv I (modify f).
Proof. intros Hf w r w' Hw H. inversion H; subst. auto. Qed.

Lemma inv_bind {A B} (m : M A) (f : A -> M B) :
  inv I m -> (forall a, inv I (f a)) -> inv I (bind m f).
Proof.
  intros Hm Hf w r w' Hw H. unfold bind in H.
  destruct (m w) as [[[a|e] w1]|] eqn:E; try discriminate.
  - eapply Hf; [|exact H]. eapply Hm; eauto.
  - inversion H; subst. eapply Hm; eauto.
Qed.

Lemma inv_try_catch {A} (body : M A) (handler : exn -> M A) :
  inv I body -> (forall e, inv I (handler e)) -> inv I (try_catch body handler).
Proof.
  intros Hb Hh w r w' Hw H. unfold try_catch in H.
  destruct (body w) as [[[a|e] w1]|] eqn:E; try discriminate.
  - inversion H; subst. eapply Hb; eauto.
  - eapply Hh; [|exact H]. eapply Hb; eauto.
Qed.

Lemma inv_if {A} (b : bool) (m1 m2 : M A) :
  inv I m1 -> inv I m2 -> inv I (if b then m1 else m2).
Proof. destruct b; auto. Qed.

(** What the client does to the state besides its own fields. *)
Hypothesis I_logged_event : forall e w, I w -> I (logged_event e w).
Hypothesis I_count_request : forall w, I w -> I (count_request w).
Hypothesis I_count_login : forall w, I w -> I (count_login w).
Hypothesis I_with_login : forall tok w, I w -> I (with_login tok w).

Lemma inv_emit name payload : inv I (emit name payload).
Proof. apply inv_modify. auto. Qed.

Lemma inv_console_log e : inv I (console_log e).
Proof. apply inv_modify. auto. Qed.

Lemma inv_setTimeout ms : inv I (setTimeout ms).
Proof. apply inv_modify. auto. Qed.

Lemma inv_post env ws data : inv I (post env ws data).
Proof.
  intros w r w' Hw H. unfold post in H.
  destruct (server env (nreq w) _); inversion H; subst; auto.
Qed.

Lemma inv_createLoginWindow env : inv I (createLoginWindow env).
Proof.
  intros w r w' Hw H. unfold createLoginWindow in H.
  destruct (loginWindow env (nlogin w)); inversion H; subst; auto.
Qed.

Hypothesis I_with_connected : forall b w, I w -> I (with_connected b w).

Lemma inv_call_tryConnection (env : Env) (fuel : nat) :
  (forall ws data c, inv I (call env fuel ws data c)) /\
  (forall ws data, inv I (tryConnection env fuel ws data)).
Proof.
  induction fuel as [|fuel [IHc IHt]]; split; intros;
    try apply inv_pending.
  - rewrite call_S.
    apply inv_bind; [apply inv_gets|]. intros co.
    apply inv_if; [apply inv_ret|].
    apply inv_bind; [apply inv_gets|]. intros l.
    apply inv_if; [apply inv_ret|].
    apply inv_try_catch.
    + apply inv_bind; [apply inv_post|]. intros parsed.
      apply inv_bind; [apply inv_lift|]. intros errorcode.
      apply inv_if; [|apply inv_ret].
      apply inv_bind; [apply inv_createLoginWindow|]. intros logged.
      apply inv_if; [apply IHc|apply inv_ret].
    + intros e. apply inv_bind; [apply inv_console_log|]. intros _.
      apply inv_if; [|apply inv_throw].
      apply inv_bind; [apply inv_modify; auto|]. intros _.
      apply inv_bind; [apply inv_emit|]. intros _.
      apply inv_bind; [apply inv_emit|]. intros _.
      apply IHt.
  - rewrite tryConnection_S.
    apply inv_try_catch.
    + apply inv_bind; [apply IHc|]. intros v.
      apply inv_bind; [apply inv_modify; auto|]. intros _.
      apply inv_bind; [apply inv_emit|]. intros _.
      apply inv_bind; [apply inv_emit|]. intros _.
      apply inv_ret.
    + intros _. apply inv_bind; [apply inv_setTimeout|]. intros _.
      apply IHt.
Qed.

Lemma inv_call env fuel ws data c : inv I (call env fuel ws data c).
Proof. apply inv_call_tryConnection. Qed.

Hypothesis I_with_username : forall v w, I w -> I (with_username v w).
Hypothesis I_with_userid : forall v w, I w -> I (with_userid v w).

Lemma inv_getUserID env fuel : inv I (getUserID env fuel).
Proof.
  unfold getUserID. apply inv_bind; [apply inv_call|]. intros res.
  apply inv_bind; [apply inv_lift|]. intros uid.
  apply inv_bind; [apply inv_lift|]. intros fullname.
  apply inv_bind; [apply inv_modify; auto|]. intros _.
  apply inv_bind; [apply inv_emit|]. intros _.
  apply inv_bind; [apply inv_modify; auto|]. intros _.
  apply inv_ret.
Qed.

Lemma inv_fetchCourses env fuel uid : inv I (fetchCourses env fuel uid).
Proof.
  unfold fetchCourses. apply inv_bind; [apply inv_call|]. intros courses.
  destruct courses; try apply inv_throw. apply inv_lift.
Qed.
End Inv.

Lemma call_cache env fuel ws data c w r w' :
  call env fuel ws data c w = Some (r, w') ->
  cachedCourses w' = cachedCourses w.
Proof.
  intros H.
  apply (@inv_call (cache_is (cachedCourses w))) in H;
    unfold cache_is in *; auto.
Qed.

Lemma getUserID_cache env fuel w r w' :
  getUserID env fuel w = Some (r, w') ->
  cachedCourses w' = cachedCourses w.
Proof.
  intros H.
  apply (@inv_getUserID (cache_is (cachedCourses w))) in H;
    unfold cache_is in *; auto.
Qed.

Lemma fetchCourses_cache env fuel uid w r w' :
  fetchCourses env fuel uid w = Some (r, w') ->
  cachedCourses w' = cachedCourses w.
Proof.
  intros H.
  apply (@inv_fetchCourses (cache_is (cachedCourses w))) in H;
    unfold cache_is in *; auto.
Qed.

(** ** Computations that cannot throw *)

Lemma no_throw_ret {A} (a : A) : no_throw (ret a).
Proof. intros w e w' H. discriminate. Qed.

Lemma no_throw_pending {A} : no_throw (@pending A).
Proof. intros w e w' H. discriminate. Qed.

Lemma no_throw_gets {A} (f : World -> A) : no_throw (gets f).
Proof. intros w e w' H. discriminate. Qed.

Lemma no_throw_modify (f : World -> World) : no_throw (modify f).
Proof. intros w e w' H. discriminate. Qed.

Lemma no_throw_bind {A B} (m : M A) (f : A -> M B) :
  no_throw m -> (forall a, no_throw (f a)) -> no_throw (bind m f).
Proof.
  intros Hm Hf w e w' H. unfold bind in H.
  destruct (m w) as [[[a|e1] w1]|] eqn:E; try discriminate.
  - exact (Hf a w1 e w' H).
  - exact (Hm w e1 w1 E).
Qed.

Lemma no_throw_try_catch {A} (body : M A) (handler : exn -> M A) :
  (forall e, no_throw (handler e)) -> no_throw (try_catch body handler).
Proof.
  intros Hh w e w' H. unfold try_catch in H.
  destruct (body w) as [[[a|e1] w1]|] eqn:E; try discriminate.
  exact (Hh e1 w1 e w' H).
Qed.

Lemma no_throw_if {A} (b : bool) (m1 m2 : M A) :
  no_throw m1 -> no_throw m2 -> no_throw (if b then m1 else m2).
Proof. destruct b; auto. Qed.

(** With [catchNetworkError] set, every exception ends in the reconnect
    loop, which catches what it meets. *)
Lemma no_throw_call_tryConnection (env : Env) (fuel : nat) :
  (forall ws data, no_throw (call env fuel ws data true)) /\
  (forall ws data, no_throw (tryConnection env fuel ws data)).
Proof.
  induction fuel as [|fuel [IHc IHt]]; split; intros;
    try apply no_throw_pending.
  - rewrite call_S.
    apply no_throw_bind; [apply no_throw_gets|]. intros co.
    apply no_throw_if; [apply no_throw_ret|].
    apply no_throw_bind; [apply no_throw_gets|]. intros l.
    apply no_throw_if; [apply no_throw_ret|].
    apply no_throw_try_catch. intros e.
    unfold console_log, emit.
    repeat (apply no_throw_bind; [apply no_throw_modify|]; intros _).
    apply IHt.
  - rewrite tryConnection_S.
    apply no_throw_try_catch. intros _.
    unfold setTimeout.
    apply no_throw_bind; [apply no_throw_modify|]. intros _.
    apply IHt.
Qed.

(** ** The connected flag *)

Lemma inv_of_post {A} (I : World -> Prop) (m : M A) :
  (forall w r w', m w = Some (r, w') -> I w') -> inv I m.
Proof. intros H w r w' _ E. exact (H w r w' E). Qed.

Lemma stays_connected_tryConnection (env : Env) (fuel : nat) :
  (forall ws data c, inv (fun w => connected w = true) (call env fuel ws data c)) /\
  (forall ws data w r w',
      tryConnection env fuel ws data w = Some (r, w') -> connected w' = true).
Proof.
  induction fuel as [|fuel [IHc IHt]]; split.
  - intros ws data c. apply inv_pending.
  - intros ws data w r w' H. discriminate.
  - intros ws data c. rewrite call_S.
    apply inv_bind; [apply inv_gets|]. intros co.
    apply inv_if; [apply inv_ret|].
    apply inv_bind; [apply inv_gets|]. intros l.
    apply inv_if; [apply inv_ret|].
    apply inv_try_catch.
    + apply inv_bind; [apply inv_post; auto|]. intros parsed.
      apply inv_bind; [apply inv_lift|]. intros errorcode.
      apply inv_if; [|apply inv_ret].
      apply inv_bind; [apply inv_createLoginWindow; auto|]. intros logged.
      apply inv_if; [apply IHc|apply inv_ret].
    + intros e. apply inv_bind; [apply inv_console_log; auto|]. intros _.
      apply inv_if; [|apply inv_throw].
      apply inv_of_post. intros w r w' H.
      unfold emit in H. rewrite !bind_modify in H.
      exact (IHt _ _ _ _ _ H).
  - intros ws data w r w' H.
    rewrite tryConnection_S in H. unfold try_catch in H.
    unfold bind at 1 in H.
    destruct (call env fuel ws data false w) as [[[v|e] w1]|];
      [|unfold setTimeout in H; rewrite bind_modify in H;
        exact (IHt _ _ _ _ _ H)|discriminate].
    unfold emit in H. rewrite !bind_modify in H.
    unfold ret in H. cbv beta iota in H.
    injection H as _ Hw. subst w'. reflexivity.
Qed.

(** A call that settles leaves the flag as it found it: the disconnected
    state does not outlive the call that entered it, and no call can leave
    it on behalf of another. *)
Lemma call_restores_connected env fuel ws data c w r w' :
  call env fuel ws data c w = Some (r, w') -> connected w' = connected w.
Proof.
  intros H. destruct (connected w) eqn:Hc.
  - exact (proj1 (stays_connected_tryConnection env fuel) ws data c w r w' Hc H).
  - destruct fuel as [|fuel]; [discriminate|].
    rewrite call_guard in H by (left; exact Hc).
    inversion H; subst. exact Hc.
Qed.

(** ** Invalid tokens *)

Lemma invalid_token_inv r :
  invalid_token r = true ->
  exists parsed errorcode,
    r = Json parsed /\
    get_prop parsed (lit "errorcode") = Return errorcode /\
    is_str errorcode (lit "invalidtoken") = true.
Proof.
  destruct r as [| |parsed]; simpl; try discriminate.
  destruct (get_prop parsed (lit "errorcode")) as [ec|] eqn:E; try discriminate.
  intros H. exists parsed, ec. auto.
Qed.

Lemma answer_inv r v :
  answer r = Some v ->
  exists errorcode,
    r = Json v /\
    get_prop v (lit "errorcode") = Return errorcode /\
    is_str errorcode (lit "invalidtoken") = false.
Proof.
  destruct r as [| |parsed]; simpl; try discriminate.
  destruct (get_prop parsed (lit "errorcode")) as [ec|] eqn:E; try discriminate.
  destruct (is_str ec (lit "invalidtoken")) eqn:Es; try discriminate.
  intros H. inversion H; subst. exists ec. auto.
Qed.

(** An ordinary reply is what [call] returns. *)
Lemma call_answer env fuel ws data c w v :
  connected w = true ->
  isLogged w = true ->
  answer (server env (nreq w) (request_of w ws data)) = Some v ->
  call env (S fuel) ws data c w =
  Some (Return v, after_request w (request_of w ws data)).
Proof.
  intros Hc Hl Ha. apply answer_inv in Ha. destruct Ha as (ec & Hs & Hg & Hi).
  rewrite call_ready by assumption.
  unfold try_catch. rewrite bind_post, Hs. cbv zeta. cbv iota.
  rewrite Hg, bind_lift_return, Hi. reflexivity.
Qed.

(** An invalid token and a successful login: the call starts over. *)
Lemma call_relogin env fuel ws data c w tok :
  connected w = true ->
  isLogged w = true ->
  invalid_token (server env (nreq w) (request_of w ws data)) = true ->
  loginWindow env (nlogin w) = LoginOk tok ->
  call env (S fuel) ws data c w =
  call env fuel ws data true (after_relogin w (request_of w ws data) tok).
Proof.
  intros Hc Hl Hi Hw. apply invalid_token_inv in Hi.
  destruct Hi as (parsed & ec & Hs & Hg & Hi).
  rewrite call_ready by assumption.
  unfold try_catch. rewrite bind_post, Hs. cbv zeta. cbv iota.
  rewrite Hg, bind_lift_return, Hi, bind_createLoginWindow. cbv zeta.
  simpl nlogin. rewrite Hw. fold (after_relogin w (request_of w ws data) tok).
  destruct (call env fuel ws data true _) as [[[a|e] w1]|] eqn:E; try reflexivity.
  exfalso. exact (proj1 (no_throw_call_tryConnection env fuel) ws data _ e w1 E).
Qed.

(** An invalid token and a login window that is closed: the call gives up. *)
Lemma call_login_closed env fuel ws data c w :
  connected w = true ->
  isLogged w = true ->
  invalid_token (server env (nreq w) (request_of w ws data)) = true ->
  loginWindow env (nlogin w) = LoginClosed ->
  call env (S fuel) ws data c w =
  Some (Return VUndefined, after_closed_login w (request_of w ws data)).
Proof.
  intros Hc Hl Hi Hw. apply invalid_token_inv in Hi.
  destruct Hi as (parsed & ec & Hs & Hg & Hi).
  rewrite call_ready by assumption.
  unfold try_catch. rewrite bind_post, Hs. cbv zeta. cbv iota.
  rewrite Hg, bind_lift_return, Hi, bind_createLoginWindow. cbv zeta.
  simpl nlogin. rewrite Hw. reflexivity.
Qed.

(** After a login the retries are numbered from the new state. *)
Lemma token_at_after_relogin env w req tok i :
  loginWindow env (nlogin w) = LoginOk tok ->
  token_at env (after_relogin w req tok) i = token_at env w (S i).
Proof.
  intros Hw. induction i as [|i IH].
  - cbn [token_at]. rewrite Nat.add_0_r, Hw. reflexivity.
  - cbn [token_at] in *.
    replace (nlogin (after_relogin w req tok) + i) with (nlogin w + S i)
      by (simpl; lia).
    destruct (loginWindow env (nlogin w + S i)); [reflexivity|exact IH].
Qed.

Lemma request_at_after_relogin env w req tok ws data i :
  loginWindow env (nlogin w) = LoginOk tok ->
  request_at env (after_relogin w req tok) ws data i = request_at env w ws data (S i).
Proof.
  intros Hw. unfold request_at. now rewrite token_at_after_relogin.
Qed.

(** ** Course contents of the declared type *)

Lemma is_materials_section_json s :
  is_materials (json_of_section s) = Return (is_materials_section s).
Proof. reflexivity. Qed.

Lemma array_find_sections cs :
  array_find is_materials (map json_of_section cs) =
  Return (option_map json_of_section (find is_materials_section cs)).
Proof.
  induction cs as [|s cs IH]; [reflexivity|].
  cbn [map array_find find]. rewrite is_materials_section_json.
  destruct (is_materials_section s); [reflexivity|exact IH].
Qed.

Lemma for_files_entries modulename es :
  forall files,
    for_files (VStr modulename) (map json_of_entry es) files =
    Return (files ++ map (file_of_entry modulename) (filter is_file es)).
Proof.
  induction es as [|e es IH]; intros files.
  - simpl. now rewrite app_nil_r.
  - cbn [map for_files filter].
    change (get_prop (json_of_entry e) (lit "type")) with (Return (VStr (e_type e))).
    cbn [cbind is_str]. fold (is_file e).
    destruct (is_file e).
    + change (get_prop (json_of_entry e) (lit "filename"))
        with (Return (VStr (e_filename e))).
      change (get_prop (json_of_entry e) (lit "filepath"))
        with (Return (VStr (e_filepath e))).
      change (get_prop (json_of_entry e) (lit "filesize"))
        with (Return (VNum (e_filesize e))).
      change (get_prop (json_of_entry e) (lit "fileurl"))
        with (Return (VStr (e_fileurl e))).
      change (get_prop (json_of_entry e) (lit "timecreated"))
        with (Return (VNum (e_timecreated e))).
      change (get_prop (json_of_entry e) (lit "timemodified"))
        with (Return (VNum (e_timemodified e))).
      cbn [cbind path_join_values]. rewrite IH.
      fold (file_of_entry modulename e).
      now rewrite <- app_assoc.
    + apply IH.
Qed.

Lemma for_modules_entries ms :
  forall files,
    for_modules (map json_of_module ms) files =
    Return (files ++ flat_map files_of_module ms).
Proof.
  induction ms as [|m ms IH]; intros files.
  - simpl. now rewrite app_nil_r.
  - cbn [map for_modules flat_map].
    change (get_prop (json_of_module m) (lit "name")) with (Return (VStr (m_name m))).
    cbn [cbind]. unfold files_of_module at 1.
    destruct (m_contents m) as [es|] eqn:Em.
    + replace (get_prop (json_of_module m) (lit "contents"))
        with (Return (VArr (map json_of_entry es)))
        by (unfold json_of_module; rewrite Em; reflexivity).
      cbn [cbind truthy negb iterate]. rewrite for_files_entries.
      cbn [cbind]. rewrite IH. now rewrite app_assoc.
    + replace (get_prop (json_of_module m) (lit "contents"))
        with (Return VUndefined)
        by (unfold json_of_module; rewrite Em; reflexivity).
      cbn [cbind truthy negb]. rewrite IH. reflexivity.
Qed.

Lemma files_of_typed_contents cs :
  files_of_contents (json_of_contents cs) = Return (materials_files cs).
Proof.
  unfold files_of_contents, json_of_contents, materials_files.
  rewrite array_find_sections.
  destruct (find is_materials_section cs) as [mat|]; [|reflexivity].
  cbn [option_map cbind].
  change (get_prop (json_of_section mat) (lit "modules"))
    with (Return (VArr (map json_of_module (s_modules mat)))).
  cbn [cbind iterate]. apply for_modules_entries.
Qed.

Lemma answer_array l : answer (Json (VArr l)) = Some (VArr l).
Proof. reflexivity. Qed.

Lemma getFileInfos_typed env fuel courseid w cs :
  connected w = true ->
  isLogged w = true ->
  server env (nreq w)
    (request_of w (lit "core_course_get_contents") [(lit "courseid", VNum courseid)])
  = Json (json_of_contents cs) ->
  getFileInfos env (S fuel) courseid w =
  Some (Return (materials_files cs),
        after_request w
          (request_of w (lit "core_course_get_contents")
             [(lit "courseid", VNum courseid)])).
Proof.
  intros Hc Hl Hs. unfold getFileInfos, bind.
  rewrite call_answer with (v := json_of_contents cs); auto.
  - unfold lift. now rewrite files_of_typed_contents.
  - rewrite Hs. apply answer_array.
Qed.

Lemma in_materials_files cs f :
  In f (materials_files cs) <->
  exists mat m es e,
    find is_materials_section cs = Some mat /\
    In m (s_modules mat) /\
    m_contents m = Some es /\
    In e es /\
    e_type e = lit "file" /\
    f = file_of_entry (m_name m) e.
Proof.
  unfold materials_files.
  destruct (find is_materials_section cs) as [mat|].
  - rewrite in_flat_map. split.
    + intros (m & Hm & Hf). unfold files_of_module in Hf.
      destruct (m_contents m) as [es|] eqn:Em; [|contradiction].
      apply in_map_iff in Hf. destruct Hf as (e & <- & He).
      apply filter_In in He. destruct He as [He Ht].
      apply str_eqb_eq in Ht.
      exists mat, m, es, e. auto 10.
    + intros (mat' & m & es & e & Hmat & Hm & Em & He & Ht & ->).
      inversion Hmat; subst mat'.
      exists m. split; [exact Hm|].
      unfold files_of_module. rewrite Em.
      apply in_map. apply filter_In. split; [exact He|].
      unfold is_file. now apply str_eqb_eq.
  - split; [contradiction|].
    intros (mat & m & es & e & Hmat & _). discriminate.
Qed.

Lemma find_no_materials cs :
  Forall (fun s => s_name s <> materials) cs ->
  find is_materials_section cs = None.
Proof.
  induction 1 as [|s cs Hs _ IH]; [reflexivity|].
  simpl. unfold is_materials_section at 1.
  now rewrite (str_eqb_neq Hs).
Qed.

(** ** The matcher *)

Section PlusLoop.
Variable R : Type.
Variable k : cclass.
Variable cont : jsstring -> option R.

Lemma plus_loop_sound s r :
  plus_loop k cont s = Some r ->
  exists x y,
    x <> [] /\ forallb (cmatch k) x = true /\ s = x ++ y /\ cont y = Some r.
Proof.
  revert r. induction s as [|c s IH]; intros r H; simpl in H; [discriminate|].
  destruct (cmatch k c) eqn:Ec; [|discriminate].
  destruct (plus_loop k cont s) as [r'|] eqn:El.
  - inversion H; subst r'.
    destruct (IH r eq_refl) as (x & y & Hx & Hall & Hs & Hc).
    exists (c :: x), y. repeat split.
    + discriminate.
    + simpl. now rewrite Ec.
    + simpl. now rewrite Hs.
    + exact Hc.
  - exists [c], s. repeat split.
    + discriminate.
    + simpl. now rewrite Ec.
    + exact H.
Qed.

(** The loop fails when its continuation fails after every prefix. *)
Lemma plus_loop_none s :
  (forall u t, u <> [] -> s = u ++ t -> cont t = None) ->
  plus_loop k cont s = None.
Proof.
  induction s as [|c s IH]; intros H; simpl; [reflexivity|].
  destruct (cmatch k c); [|reflexivity].
  rewrite IH.
  - apply (H [c] s); [discriminate|reflexivity].
  - intros u t Hu Hs. apply (H (c :: u) t); [discriminate|].
    simpl. now rewrite Hs.
Qed.

(** The loop is greedy: it stops at the longest prefix it can take, if
    the continuation accepts what follows. *)
Lemma plus_loop_longest x t r :
  x <> [] ->
  forallb (cmatch k) x = true ->
  plus_loop k cont t = None ->
  cont t = Some r ->
  plus_loop k cont (x ++ t) = Some r.
Proof.
  intros Hx Hall Hnone Hc.
  induction x as [|c x IH]; [contradiction|].
  simpl in Hall. apply andb_true_iff in Hall. destruct Hall as [Ec Hall].
  simpl. rewrite Ec.
  destruct x as [|c' x].
  - simpl. now rewrite Hnone.
  - rewrite IH; [reflexivity|discriminate|exact Hall].
Qed.

(** When every success of the continuation gives the same result, any
    split proves the loop succeeds. *)
Lemma plus_loop_some x y r :
  (forall z r', cont z = Some r' -> r' = r) ->
  x <> [] ->
  forallb (cmatch k) x = true ->
  cont y = Some r ->
  plus_loop k cont (x ++ y) = Some r.
Proof.
  intros Huniq Hx Hall Hc.
  induction x as [|c x IH]; [contradiction|].
  simpl in Hall. apply andb_true_iff in Hall. destruct Hall as [Ec Hall].
  simpl. rewrite Ec.
  destruct x as [|c' x].
  - simpl. destruct (plus_loop k cont y) as [r'|] eqn:El; [|exact Hc].
    apply plus_loop_sound in El. destruct El as (_ & z & _ & _ & _ & Hz).
    now rewrite (Huniq z r' Hz).
  - rewrite IH; [reflexivity|discriminate|exact Hall].
Qed.
End PlusLoop.

Lemma match_one_lit {R} c p (cont : jsstring -> option R) s r :
  match_items (One (CLit c) :: p) cont s = Some r ->
  exists s', s = c :: s' /\ match_items p cont s' = Some r.
Proof.
  destruct s as [|a s]; simpl; [discriminate|].
  destruct (N.eqb a c) eqn:E; [|discriminate].
  apply N.eqb_eq in E. subst a. intros H. exists s. auto.
Qed.

Lemma has_space_paren_app u r :
  has_space_paren (u ++ 32%N :: 40%N :: r) = true.
Proof.
  induction u as [|c u IH]; [reflexivity|].
  simpl app. cbn [has_space_paren]. rewrite IH. apply orb_true_r.
Qed.

Lemma has_space_paren_closing x :
  has_space_paren (x ++ [41%N]) = has_space_paren x.
Proof.
  induction x as [|c x IH]; [reflexivity|].
  simpl app. cbn [has_space_paren]. rewrite IH.
  destruct x as [|d x]; [|reflexivity].
  simpl. now rewrite andb_false_r.
Qed.

Lemma firstn_cut (n t : jsstring) :
  firstn (length (n ++ t) - length t) (n ++ t) = n.
Proof.
  rewrite length_app, Nat.add_sub, firstn_app, Nat.sub_diag, firstn_all.
  simpl. apply app_nil_r.
Qed.

(** On a name of the shape, with nothing in the suffix that could be taken
    for the start of another suffix, the match starts at the first digit
    and captures the name. *)
Lemma match_at_shape d n x :
  d <> [] -> all_digits d = true ->
  n <> [] -> one_line n = true ->
  x <> [] -> one_line x = true ->
  has_space_paren x = false ->
  match_at course_re (course_shape d n x) = Some n.
Proof.
  intros Hd Hdd Hn Hnl Hx Hxl Hsp.
  unfold match_at, course_re, course_shape.
  cbn [before group after match_items].
  apply plus_loop_longest; [exact Hd|exact Hdd|reflexivity|].
  change (lit " - " ++ n ++ lit " (" ++ x ++ lit ")")
    with (32 :: 45 :: 32 :: (n ++ 32 :: 40 :: (x ++ [41])))%N.
  cbv beta iota. change (cmatch (CLit 32) 32%N) with true.
  change (cmatch (CLit 45) 45%N) with true. cbv iota.
  apply plus_loop_longest; [exact Hn|exact Hnl| |].
  - apply plus_loop_none. intros u t Hu Ht.
    destruct t as [|a [|b t]]; try reflexivity.
    { destruct (cmatch (CLit 32) a); reflexivity. }
    destruct (cmatch (CLit 32) a) eqn:Ea; [|reflexivity].
    destruct (cmatch (CLit 40) b) eqn:Eb; [|reflexivity].
    exfalso. simpl in Ea, Eb. apply N.eqb_eq in Ea, Eb. subst a b.
    destruct u as [|u0 [|u1 u]]; [contradiction| |].
    + inversion Ht.
    + inversion Ht as [[H0 H1 H2]].
      assert (E : has_space_paren (x ++ [41%N]) = true)
        by (rewrite H2; apply has_space_paren_app).
      rewrite has_space_paren_closing in E. congruence.
  - cbv beta iota. change (cmatch (CLit 32) 32%N) with true.
    change (cmatch (CLit 40) 40%N) with true. cbv iota.
    rewrite firstn_cut.
    apply plus_loop_some; [|exact Hx|exact Hxl|reflexivity].
    intros z r' Hz. destruct z as [|c z]; [discriminate|].
    destruct (cmatch (CLit 41) c); [|discriminate].
    now inversion Hz.
Qed.

Lemma str_match_here re s g :
  match_at re s = Some g -> str_match re s = Some g.
Proof. intros H. destruct s; simpl; now rewrite H. Qed.

Lemma match_items_plus {R} k p (cont : jsstring -> option R) s :
  match_items (Plus k :: p) cont s = plus_loop k (match_items p cont) s.
Proof. reflexivity. Qed.

Lemma match_items_nil {R} (cont : jsstring -> option R) s :
  match_items [] cont s = cont s.
Proof. reflexivity. Qed.

(** Whatever [match_at] finds has the shape of the pattern. *)
Lemma match_at_sound s g :
  match_at course_re s = Some g ->
  exists d n x z,
    d <> [] /\ all_digits d = true /\
    n <> [] /\ one_line n = true /\
    x <> [] /\ one_line x = true /\
    s = course_shape d n x ++ z.
Proof.
  unfold match_at, course_re. cbn [before group after].
  intros H.
  rewrite match_items_plus in H.
  apply plus_loop_sound in H. destruct H as (d & y & Hd & Hdd & -> & H).
  apply match_one_lit in H. destruct H as (y1 & -> & H).
  apply match_one_lit in H. destruct H as (y2 & -> & H).
  apply match_one_lit in H. destruct H as (r & -> & H).
  rewrite match_items_nil, match_items_plus in H.
  apply plus_loop_sound in H. destruct H as (n & t & Hn & Hnl & -> & H).
  rewrite match_items_nil in H.
  apply match_one_lit in H. destruct H as (t1 & -> & H).
  apply match_one_lit in H. destruct H as (t2 & -> & H).
  rewrite match_items_plus in H.
  apply plus_loop_sound in H. destruct H as (x & y & Hx & Hxl & -> & H).
  apply match_one_lit in H. destruct H as (z & -> & _).
  exists d, n, x, z. repeat split; auto.
  unfold course_shape. rewrite <- !app_assoc. reflexivity.
Qed.

Lemma str_match_sound s g :
  str_match course_re s = Some g -> pattern_occurs s.
Proof.
  induction s as [|c s IH]; simpl.
  - destruct (match_at course_re []) eqn:E; [|discriminate].
    intros _. apply match_at_sound in E.
    destruct E as (d & n & x & z & H). exists [], d, n, x, z. exact H.
  - destruct (match_at course_re (c :: s)) eqn:E.
    + intros _. apply match_at_sound in E.
      destruct E as (d & n & x & z & H). exists [], d, n, x, z. exact H.
    + intros H. apply IH in H.
      destruct H as (p & d & n & x & z & H1 & H2 & H3 & H4 & H5 & H6 & ->).
      exists (c :: p), d, n, x, z. repeat split; auto.
Qed.

Lemma normalize_name_shape d n x :
  d <> [] -> all_digits d = true ->
  n <> [] -> one_line n = true ->
  x <> [] -> one_line x = true ->
  has_space_paren x = false ->
  normalize_name (course_shape d n x) = n.
Proof.
  intros. unfold normalize_name.
  rewrite (str_match_here course_re (course_shape d n x) (g := n)); [reflexivity|].
  now apply match_at_shape.
Qed.

Lemma normalize_name_other s :
  ~ pattern_occurs s -> normalize_name s = s.
Proof.
  intros H. unfold normalize_name.
  destruct (str_match course_re s) as [g|] eqn:E; [|reflexivity].
  exfalso. apply H. eapply str_match_sound. exact E.
Qed.

(** ** [getCourses] *)

(** [getCourses] step by step: the user id, then the [try] statement. *)
Lemma getCourses_unfold env fuel w :
  getCourses env fuel w =
  match (if nullish (userid w) then getUserID env fuel w
         else Some (Return (userid w), w)) with
  | Some (Return uid, w1) =>
      match fetchCourses env fuel uid w1 with
      | Some (Return cs, w2) => Some (Return cs, with_cachedCourses cs w2)
      | Some (Throw _, w2) => Some (Return (cachedCourses w2), w2)
      | None => None
      end
  | Some (Throw e, w1) => Some (Throw e, w1)
  | None => None
  end.
Proof.
  unfold getCourses. rewrite bind_gets.
  unfold bind at 1.
  destruct (nullish (userid w)).
  - destruct (getUserID env fuel w) as [[[uid|e] w1]|]; try reflexivity.
    unfold try_catch, bind.
    destruct (fetchCourses env fuel uid w1) as [[[cs|e] w2]|]; reflexivity.
  - unfold ret at 1. unfold try_catch, bind.
    destruct (fetchCourses env fuel (userid w) w) as [[[cs|e] w2]|]; reflexivity.
Qed.

(** Without an invalid token in the reply, one round of [call] settles. *)
Lemma call_settles env fuel ws data w :
  invalid_token (server env (nreq w) (request_of w ws data)) = false ->
  call env (S fuel) ws data false w <> None.
Proof.
  intros Hi.
  destruct (connected w) eqn:Hc;
    [|rewrite call_guard by (left; exact Hc); discriminate].
  destruct (isLogged w) eqn:Hl;
    [|rewrite call_guard by (right; exact Hl); discriminate].
  rewrite call_ready by assumption.
  unfold try_catch. rewrite bind_post. cbv zeta.
  destruct (server env (nreq w) (request_of w ws data)) as [| |parsed];
    try discriminate.
  simpl in Hi.
  destruct (get_prop parsed (lit "errorcode")) as [ec|e].
  - rewrite bind_lift_return, Hi. discriminate.
  - rewrite bind_lift_throw. discriminate.
Qed.

Lemma fetchCourses_settles env fuel uid w :
  invalid_token
    (server env (nreq w)
       (request_of w (lit "core_enrol_get_users_courses") [(lit "userid", uid)]))
  = false ->
  fetchCourses env (S fuel) uid w <> None.
Proof.
  intros Hi. unfold fetchCourses, bind.
  pose proof (call_settles env fuel _ _ w Hi) as Hs.
  destruct (call env (S fuel) _ _ false w) as [[[v|e] w1]|];
    [|discriminate|contradiction].
  destruct v; discriminate.
Qed.

Lemma fetchCourses_array env fuel uid w l cs :
  connected w = true ->
  isLogged w = true ->
  server env (nreq w)
    (request_of w (lit "core_enrol_get_users_courses") [(lit "userid", uid)])
  = Json (VArr l) ->
  array_map to_course l = Return cs ->
  fetchCourses env (S fuel) uid w =
  Some (Return cs,
        after_request w
          (request_of w (lit "core_enrol_get_users_courses") [(lit "userid", uid)])).
Proof.
  intros Hc Hl Hs Hm. unfold fetchCourses, bind.
  rewrite call_answer with (v := VArr l); auto.
  - unfold lift. now rewrite Hm.
  - rewrite Hs. apply answer_array.
Qed.

(** ** The primitives at work *)

Example path_join_keeps_trailing_slash :
  path_join (lit "Lecture 1") (lit "/sub/") = lit "Lecture 1/sub/".
Proof. reflexivity. Qed.

Example path_join_resolves_dots :
  path_join (lit "a/../..") (lit "b/./c") = lit "../b/c".
Proof. reflexivity. Qed.

Example str_match_course :
  str_match course_re (lit "2023 - Systems Programming (SP)")
  = Some (lit "Systems Programming").
Proof. reflexivity. Qed.

Example str_match_plain : str_match course_re (lit "Systems Programming") = None.
Proof. reflexivity. Qed.

Example getCourses_lists_normalized_course :
  getCourses env_courses 1 known_user =
  Some (Return [{| id := VNum 7; name := lit "Systems Programming" |}],
        with_cachedCourses [{| id := VNum 7; name := lit "Systems Programming" |}]
          (after_request known_user
             (request_of known_user (lit "core_enrol_get_users_courses")
                [(lit "userid", VNum 42)]))).
Proof. vm_compute. reflexivity. Qed.

Example getUserID_stores_the_user :
  option_map (fun r => (fst r, userid (snd r), username (snd r)))
    (getUserID env_site_info_only 1 logged_in)
  = Some (Return (VNum 42), VNum 42, VStr (lit "Ada Lovelace")).
Proof. vm_compute. reflexivity. Qed.

(** * The claims *)

(** C1, as the code runs it.  When the request of a call with
    [catchNetworkError] fails at the network level, the client logs the
    error, marks itself disconnected and emits [disconnected] and
    [network_event false] once each.  The one attempt that [tryConnection]
    then makes is stopped by the guard on [connected] at the head of [call]:
    it sends nothing and yields [undefined].  So the caller's promise is
    resolved with [undefined], the client marks itself connected and emits
    [reconnected] and [network_event true] once each, after exactly one
    request and without ever arming the 5 second timer. *)
Theorem call_network_failure_resolves_undefined env fuel ws data w :
  connected w = true ->
  isLogged w = true ->
  server env (nreq w) (request_of w ws data) = NetworkFailure ->
  exists w',
    call env (S (S (S fuel))) ws data true w = Some (Return VUndefined, w') /\
    log w' = log w ++ [EvPost (request_of w ws data);
                       EvConsoleLog RequestError;
                       EvEmit (lit "disconnected") [];
                       EvEmit (lit "network_event") [VBool false];
                       EvEmit (lit "reconnected") [];
                       EvEmit (lit "network_event") [VBool true]] /\
    nreq w' = S (nreq w).
Proof.
  intros Hc Hl Hs. eexists. split; [|split].
  - apply call_network_failure_run; assumption.
  - simpl. repeat rewrite <- app_assoc. reflexivity.
  - reflexivity.
Qed.

Lemma call_network_failure_resolves_undefined_witness :
  exists w',
    call env_down 3 (lit "core_webservice_get_site_info") [] true logged_in
    = Some (Return VUndefined, w') /\
    log w' = log logged_in
             ++ [EvPost (request_of logged_in (lit "core_webservice_get_site_info") []);
                 EvConsoleLog RequestError;
                 EvEmit (lit "disconnected") [];
                 EvEmit (lit "network_event") [VBool false];
                 EvEmit (lit "reconnected") [];
                 EvEmit (lit "network_event") [VBool true]] /\
    nreq w' = S (nreq logged_in).
Proof.
  apply (@call_network_failure_resolves_undefined env_down 0
           (lit "core_webservice_get_site_info") [] logged_in);
    reflexivity.
Defined.

(** C8, as the code runs it.  Even when the service never answers, a
    client that was connected and logged in is connected again as soon as
    the call settles, after the single request that failed: the flag
    returns to [true] without any request having succeeded. *)
Theorem reconnects_without_successful_request env fuel ws data w :
  (forall n req, server env n req = NetworkFailure) ->
  connected w = true ->
  isLogged w = true ->
  exists w',
    call env (S (S (S fuel))) ws data true w = Some (Return VUndefined, w') /\
    connected w' = true /\
    nreq w' = S (nreq w).
Proof.
  intros Hs Hc Hl. eexists. split; [|split].
  - apply call_network_failure_run; [assumption|assumption|apply Hs].
  - reflexivity.
  - reflexivity.
Qed.

Lemma reconnects_without_successful_request_witness :
  exists w',
    call env_down 3 (lit "core_course_get_contents") [(lit "courseid", VNum 7)]
      true logged_in
    = Some (Return VUndefined, w') /\
    connected w' = true /\
    nreq w' = S (nreq logged_in).
Proof.
  apply (@reconnects_without_successful_request env_down 0
           (lit "core_course_get_contents") [(lit "courseid", VNum 7)] logged_in).
  - intros n req. reflexivity.
  - reflexivity.
  - reflexivity.
Defined.

(** C7.  A call made while the client is marked disconnected, or while the
    login manager reports that nobody is logged in, returns [undefined] at
    once and leaves the state as it was: no request is sent or counted and
    nothing is added to the log. *)
Theorem call_short_circuit env fuel ws data c w :
  connected w = false \/ isLogged w = false ->
  call env (S fuel) ws data c w = Some (Return VUndefined, w).
Proof. apply call_guard. Qed.

Lemma call_short_circuit_witness :
  call env_down 1 (lit "core_course_get_contents") [(lit "courseid", VNum 7)]
    true logged_out
  = Some (Return VUndefined, logged_out).
Proof.
  apply (@call_short_circuit env_down 0 (lit "core_course_get_contents")
           [(lit "courseid", VNum 7)] true logged_out).
  right. reflexivity.
Defined.

(** C9.  [getFileInfos], invoked while the client is marked disconnected or
    nobody is logged in, rejects with a [TypeError]: its call yields
    [undefined] and [contents.find] is read off it.  It does not return a
    list, empty or otherwise. *)
Theorem getFileInfos_rejects_offline env fuel courseid w :
  connected w = false \/ isLogged w = false ->
  getFileInfos env (S fuel) courseid w = Some (Throw TypeError, w).
Proof.
  intros H. unfold getFileInfos, bind.
  rewrite call_guard by exact H. reflexivity.
Qed.

Lemma getFileInfos_rejects_offline_witness :
  getFileInfos (env_contents lecture_contents) 1 7 logged_out
  = Some (Throw TypeError, logged_out).
Proof.
  apply (@getFileInfos_rejects_offline (env_contents lecture_contents) 0 7 logged_out).
  right. reflexivity.
Defined.

(** C2, amended.  Every reply that carries the error code [invalidtoken]
    opens the login window once, and a successful login makes the client
    issue the call again, with the new token, through [call] itself, which
    treats the next reply in the same way.  So when the first [k] requests
    of a call, each carrying the token in force when it is sent, are
    answered with [invalidtoken] and each is followed by a successful
    login: an ordinary reply to the next request is returned to the caller,
    after [k] logins and [k + 1] requests; if the next request is rejected
    too and the login window is then closed without a login, the call gives
    up and returns [undefined], after [k + 1] requests and [k + 1] login
    windows; and a call given fuel for no more than [k] rounds has not
    settled, so that it never settles while the service keeps rejecting the
    token and every login succeeds. *)
Theorem call_invalid_token_rounds env k :
  forall ws data c w,
    connected w = true ->
    isLogged w = true ->
    (forall i, i < k ->
        invalid_token (server env (nreq w + i) (request_at env w ws data i)) = true) ->
    (forall i, i < k -> login_succeeds (loginWindow env (nlogin w + i)) = true) ->
    (forall fuel v,
        answer (server env (nreq w + k) (request_at env w ws data k)) = Some v ->
        exists w',
          call env (S (k + fuel)) ws data c w = Some (Return v, w') /\
          nreq w' = nreq w + k + 1 /\ nlogin w' = nlogin w + k) /\
    (forall fuel,
        invalid_token (server env (nreq w + k) (request_at env w ws data k)) = true ->
        loginWindow env (nlogin w + k) = LoginClosed ->
        exists w',
          call env (S (k + fuel)) ws data c w = Some (Return VUndefined, w') /\
          nreq w' = nreq w + k + 1 /\ nlogin w' = nlogin w + k + 1) /\
    (forall fuel, fuel <= k -> call env fuel ws data c w = None).
Proof.
  induction k as [|k IH]; intros ws data c w Hc Hl Hinv Hlog.
  - rewrite !Nat.add_0_r.
    change (request_at env w ws data 0) with (request_of w ws data).
    repeat split.
    + intros fuel v Ha. eexists. split; [|split].
      * apply call_answer; auto.
      * simpl. lia.
      * reflexivity.
    + intros fuel Hi Hcl. eexists. split; [|split].
      * apply call_login_closed; auto.
      * simpl. lia.
      * simpl. lia.
    + intros fuel Hf. assert (fuel = 0) by lia. subst. reflexivity.
  - assert (H0 : invalid_token (server env (nreq w) (request_of w ws data)) = true).
    { rewrite <- (Nat.add_0_r (nreq w)). apply (Hinv 0). lia. }
    assert (H1 : login_succeeds (loginWindow env (nlogin w)) = true).
    { rewrite <- (Nat.add_0_r (nlogin w)). apply Hlog. lia. }
    destruct (loginWindow env (nlogin w)) as [tok|] eqn:Hw; [|discriminate].
    set (w1 := after_relogin w (request_of w ws data) tok).
    assert (Hn : nreq w1 = S (nreq w)) by reflexivity.
    assert (Hm : nlogin w1 = S (nlogin w)) by reflexivity.
    assert (Hr : forall i, request_at env w1 ws data i = request_at env w ws data (S i)).
    { intros i. apply request_at_after_relogin. exact Hw. }
    assert (Hinv' : forall i, i < k ->
               invalid_token (server env (nreq w1 + i) (request_at env w1 ws data i))
               = true).
    { intros i Hi. rewrite Hn, Hr.
      replace (S (nreq w) + i) with (nreq w + S i) by lia. apply Hinv. lia. }
    assert (Hlog' : forall i, i < k ->
               login_succeeds (loginWindow env (nlogin w1 + i)) = true).
    { intros i Hi. rewrite Hm.
      replace (S (nlogin w) + i) with (nlogin w + S i) by lia. apply Hlog. lia. }
    destruct (IH ws data true w1 Hc eq_refl Hinv' Hlog') as (IHa & IHb & IHc).
    repeat split.
    + intros fuel v Ha.
      destruct (IHa fuel v) as (w' & Hrun & Hq & Hg).
      { rewrite Hn, Hr.
        replace (S (nreq w) + k) with (nreq w + S k) by lia. exact Ha. }
      exists w'. split; [|split]; try lia.
      simpl plus. rewrite call_relogin with (tok := tok) by assumption. exact Hrun.
    + intros fuel Hi Hcl.
      destruct (IHb fuel) as (w' & Hrun & Hq & Hg).
      { rewrite Hn, Hr.
        replace (S (nreq w) + k) with (nreq w + S k) by lia. exact Hi. }
      { rewrite Hm.
        replace (S (nlogin w) + k) with (nlogin w + S k) by lia. exact Hcl. }
      exists w'. split; [|split]; try lia.
      simpl plus. rewrite call_relogin with (tok := tok) by assumption. exact Hrun.
    + intros [|fuel] Hf; [reflexivity|].
      rewrite call_relogin with (tok := tok) by assumption. apply IHc. lia.
Qed.

Lemma call_invalid_token_rounds_witness :
  exists w',
    call env_token_checked (S (2 + 0)) (lit "core_course_get_contents") [] true logged_in
    = Some (Return (VArr []), w') /\
    nreq w' = nreq logged_in + 2 + 1 /\ nlogin w' = nlogin logged_in + 2.
Proof.
  refine (proj1 (@call_invalid_token_rounds env_token_checked 2
                   (lit "core_course_get_contents") [] true logged_in
                   eq_refl eq_refl _ _) 0 (VArr []) _).
  - intros i Hi. destruct i as [|[|i]]; [reflexivity|reflexivity|lia].
  - intros i Hi. destruct i as [|i]; reflexivity.
  - reflexivity.
Defined.

(** C2 as stated fails: the token is rejected, the login succeeds, the
    retried call is rejected again, and the call neither gives up nor stops
    at one login.  It opens a second login window, sends a third request
    and returns what that request brings. *)
Lemma invalid_token_twice_counterexample :
  invalid_token
    (server env_expired_twice 0
       (request_of logged_in (lit "core_course_get_contents") [])) = true /\
  loginWindow env_expired_twice 0 = LoginOk (lit "fresh") /\
  invalid_token
    (server env_expired_twice 1
       (request_of (with_login (lit "fresh") logged_in)
          (lit "core_course_get_contents") [])) = true /\
  exists w',
    call env_expired_twice 3 (lit "core_course_get_contents") [] true logged_in
    = Some (Return (VArr []), w') /\
    nlogin w' = 2 /\ nreq w' = 3.
Proof.
  split; [vm_compute; reflexivity|].
  split; [reflexivity|].
  split; [vm_compute; reflexivity|].
  eexists. split; [vm_compute; reflexivity|].
  split; reflexivity.
Qed.

(** C3, amended.  For a course whose display name is
    ["<digits> - <name> (<suffix>)"], with at least one digit, a non-empty
    name and suffix that hold no line terminator, and no space followed by an
    opening parenthesis inside the suffix, the course [getCourses] builds is
    named exactly [<name>].  A display name in which the pattern
    [\d+ - .+ \(.+\)] occurs nowhere is passed through unchanged. *)
Theorem to_course_normalizes c i :
  get_prop c (lit "id") = Return i ->
  (forall d n x,
      get_prop c (lit "fullname") = Return (VStr (course_shape d n x)) ->
      d <> [] -> all_digits d = true ->
      n <> [] -> one_line n = true ->
      x <> [] -> one_line x = true ->
      has_space_paren x = false ->
      to_course c = Return {| id := i; name := n |}) /\
  (forall s,
      get_prop c (lit "fullname") = Return (VStr s) ->
      ~ pattern_occurs s ->
      to_course c = Return {| id := i; name := s |}).
Proof.
  intros Hi. split.
  - intros d n x Hf Hd Hdd Hn Hnl Hx Hxl Hsp.
    unfold to_course. rewrite Hi. cbn [cbind]. rewrite Hf. cbn [cbind].
    now rewrite normalize_name_shape.
  - intros s Hf Hs.
    unfold to_course. rewrite Hi. cbn [cbind]. rewrite Hf. cbn [cbind].
    now rewrite normalize_name_other.
Qed.

Lemma to_course_normalizes_witness :
  to_course (course_json 7 (lit "2023 - Systems Programming (SP)"))
  = Return {| id := VNum 7; name := lit "Systems Programming" |}.
Proof.
  refine (proj1 (@to_course_normalizes
                   (course_json 7 (lit "2023 - Systems Programming (SP)"))
                   (VNum 7) eq_refl)
            (lit "2023") (lit "Systems Programming") (lit "SP")
            eq_refl _ eq_refl _ eq_refl _ eq_refl eq_refl);
    discriminate.
Defined.

(** C3 as stated fails in both halves.  ["1 - A (b) (c)"] has the shape with
    name ["A"] and suffix ["b) (c"], yet the course is named ["A (b)"]: the
    loop around the name is greedy.  And ["Aula 2 - Lab (x)!"] does not have
    the shape, since it does not start with a digit, yet the course is named
    ["Lab"]: the pattern is not anchored. *)
Lemma to_course_counterexample :
  (lit "1 - A (b) (c)" = course_shape (lit "1") (lit "A") (lit "b) (c") /\
   to_course (course_json 7 (lit "1 - A (b) (c)"))
   = Return {| id := VNum 7; name := lit "A (b)" |}) /\
  ((forall d n x,
       d <> [] -> all_digits d = true ->
       lit "Aula 2 - Lab (x)!" <> course_shape d n x) /\
   to_course (course_json 8 (lit "Aula 2 - Lab (x)!"))
   = Return {| id := VNum 8; name := lit "Lab" |}).
Proof.
  split; [split; reflexivity|]. split; [|reflexivity].
  intros d n x Hd Hdd E.
  destruct d as [|c d]; [contradiction|].
  unfold course_shape in E. simpl in E. inversion E; subst c.
  simpl in Hdd. discriminate.
Qed.

(** C4, amended.  The materials section is the first section whose name
    equals [materials], the literal ['Materiali'] of the source; a section
    named ["Materials"] is not one.  When the service answers the
    course-contents request with contents of the declared type,
    [getFileInfos] returns the files of that section: module by module, the
    content entries whose type is ["file"] and no others, each with its
    file path replaced by [path.join] of the module's name and the entry's
    own file path.  An entry with the empty file path in module
    ["Lecture 1"] gets the file path ["Lecture 1"]. *)
Theorem getFileInfos_materials_files env fuel courseid w cs :
  connected w = true ->
  isLogged w = true ->
  server env (nreq w)
    (request_of w (lit "core_course_get_contents") [(lit "courseid", VNum courseid)])
  = Json (json_of_contents cs) ->
  getFileInfos env (S fuel) courseid w =
  Some (Return (materials_files cs),
        after_request w
          (request_of w (lit "core_course_get_contents")
             [(lit "courseid", VNum courseid)])) /\
  (forall f,
      In f (materials_files cs) <->
      exists mat m es e,
        find is_materials_section cs = Some mat /\
        In m (s_modules mat) /\
        m_contents m = Some es /\
        In e es /\
        e_type e = lit "file" /\
        f = file_of_entry (m_name m) e) /\
  (forall e,
      e_filepath e = [] ->
      filepath (file_of_entry (lit "Lecture 1") e) = lit "Lecture 1").
Proof.
  intros Hc Hl Hs. split; [|split].
  - now apply getFileInfos_typed.
  - intros f. apply in_materials_files.
  - intros e He. unfold file_of_entry. cbn [filepath]. rewrite He. reflexivity.
Qed.

Lemma getFileInfos_materials_files_witness :
  getFileInfos (env_contents lecture_contents) 1 7 logged_in =
  Some (Return [{| filename := VStr (lit "slides.pdf");
                   filepath := lit "Lecture 1";
                   filesize := VNum 1024;
                   fileurl := VStr (lit "https://webeep.polimi.it/slides.pdf");
                   timecreated := VNum 1;
                   timemodified := VNum 2 |}],
        after_request logged_in
          (request_of logged_in (lit "core_course_get_contents")
             [(lit "courseid", VNum 7)])).
Proof.
  exact (proj1 (@getFileInfos_materials_files (env_contents lecture_contents) 0 7
                  logged_in lecture_contents eq_refl eq_refl eq_refl)).
Defined.

(** C4 as stated fails on the scenario it cites: the contents have one
    section named ["Materials"], whose module ["Lecture 1"] holds the file
    ["slides.pdf"] at the empty file path, and [getFileInfos] returns no
    file at all.  The section it looks for is the one named [materials],
    ['Materiali']. *)
Lemma getFileInfos_materials_counterexample :
  (exists s m es e,
      english_contents = [s] /\
      s_name s = lit "Materials" /\
      s_modules s = [m] /\
      m_name m = lit "Lecture 1" /\
      m_contents m = Some es /\
      es = [e] /\
      e_type e = lit "file" /\
      e_filename e = lit "slides.pdf" /\
      e_filepath e = []) /\
  getFileInfos (env_contents english_contents) 1 7 logged_in =
  Some (Return [],
        after_request logged_in
          (request_of logged_in (lit "core_course_get_contents")
             [(lit "courseid", VNum 7)])).
Proof.
  split.
  - do 4 eexists. repeat split; reflexivity.
  - vm_compute. reflexivity.
Qed.

(** C5, amended.  When the contents the service answers with have no
    section whose name equals [materials], the literal ['Materiali'] of the
    source, [getFileInfos] returns the empty list; whether a section is
    named ["Materials"] plays no part. *)
Theorem getFileInfos_without_materials env fuel courseid w cs :
  connected w = true ->
  isLogged w = true ->
  server env (nreq w)
    (request_of w (lit "core_course_get_contents") [(lit "courseid", VNum courseid)])
  = Json (json_of_contents cs) ->
  Forall (fun s => s_name s <> materials) cs ->
  getFileInfos env (S fuel) courseid w =
  Some (Return [],
        after_request w
          (request_of w (lit "core_course_get_contents")
             [(lit "courseid", VNum courseid)])).
Proof.
  intros Hc Hl Hs Hno.
  rewrite getFileInfos_typed with (cs := cs) by assumption.
  unfold materials_files. now rewrite find_no_materials.
Qed.

Lemma getFileInfos_without_materials_witness :
  getFileInfos (env_contents forum_contents) 1 7 logged_in =
  Some (Return [],
        after_request logged_in
          (request_of logged_in (lit "core_course_get_contents")
             [(lit "courseid", VNum 7)])).
Proof.
  apply (@getFileInfos_without_materials (env_contents forum_contents) 0 7
           logged_in forum_contents eq_refl eq_refl eq_refl).
  repeat constructor. discriminate.
Defined.

(** C5 as stated fails: [lecture_contents] has no section named
    ["Materials"], and [getFileInfos] does not return the empty list.  It
    returns the file of the section named [materials], ['Materiali']. *)
Lemma getFileInfos_without_materials_counterexample :
  Forall (fun s => s_name s <> lit "Materials") lecture_contents /\
  getFileInfos (env_contents lecture_contents) 1 7 logged_in =
  Some (Return [{| filename := VStr (lit "slides.pdf");
                   filepath := lit "Lecture 1";
                   filesize := VNum 1024;
                   fileurl := VStr (lit "https://webeep.polimi.it/slides.pdf");
                   timecreated := VNum 1;
                   timemodified := VNum 2 |}],
        after_request logged_in
          (request_of logged_in (lit "core_course_get_contents")
             [(lit "courseid", VNum 7)])).
Proof.
  split.
  - repeat constructor; discriminate.
  - vm_compute. reflexivity.
Qed.

(** C6, amended.  For an invocation of [getCourses] that has its user id,
    stored already or delivered by [getUserID]: when the service answers
    the request with an array whose entries all normalize, [getCourses]
    returns the normalized list and overwrites the cache with it; when the
    fetch fails in whatever way (the request throws, yields nothing, or
    yields something that is not a list of courses), [getCourses] returns
    the list that was cached and leaves the cache as it was; and it settles
    whenever the reply to its request is not an invalid-token error.
    [getCourses] throws exactly when the user id is unknown and
    [getUserID] throws, with the error of [getUserID]. *)
Theorem getCourses_with_user_id env w :
  (forall fuel uid w1 l cs,
      (if nullish (userid w) then getUserID env (S fuel) w
       else Some (Return (userid w), w)) = Some (Return uid, w1) ->
      connected w1 = true ->
      isLogged w1 = true ->
      server env (nreq w1)
        (request_of w1 (lit "core_enrol_get_users_courses") [(lit "userid", uid)])
      = Json (VArr l) ->
      array_map to_course l = Return cs ->
      getCourses env (S fuel) w =
      Some (Return cs,
            with_cachedCourses cs
              (after_request w1
                 (request_of w1 (lit "core_enrol_get_users_courses")
                    [(lit "userid", uid)])))) /\
  (forall fuel uid w1 e w2,
      (if nullish (userid w) then getUserID env fuel w
       else Some (Return (userid w), w)) = Some (Return uid, w1) ->
      fetchCourses env fuel uid w1 = Some (Throw e, w2) ->
      getCourses env fuel w = Some (Return (cachedCourses w), w2) /\
      cachedCourses w2 = cachedCourses w) /\
  (forall fuel e w',
      getCourses env fuel w = Some (Throw e, w') <->
      nullish (userid w) = true /\ getUserID env fuel w = Some (Throw e, w')) /\
  (forall fuel uid w1,
      (if nullish (userid w) then getUserID env (S fuel) w
       else Some (Return (userid w), w)) = Some (Return uid, w1) ->
      invalid_token
        (server env (nreq w1)
           (request_of w1 (lit "core_enrol_get_users_courses")
              [(lit "userid", uid)])) = false ->
      getCourses env (S fuel) w <> None).
Proof.
  split; [|split; [|split]].
  - intros fuel uid w1 l cs Hu Hc Hl Hs Hm.
    rewrite getCourses_unfold, Hu.
    now rewrite fetchCourses_array with (l := l) (cs := cs).
  - intros fuel uid w1 e w2 Hu Hf.
    assert (H1 : cachedCourses w1 = cachedCourses w).
    { destruct (nullish (userid w)).
      - now apply getUserID_cache in Hu.
      - now inversion Hu. }
    assert (H2 : cachedCourses w2 = cachedCourses w).
    { apply fetchCourses_cache in Hf. congruence. }
    split; [|exact H2].
    rewrite getCourses_unfold, Hu, Hf, H2. reflexivity.
  - intros fuel e w'. rewrite getCourses_unfold. split.
    + destruct (nullish (userid w)).
      * destruct (getUserID env fuel w) as [[[uid|e1] w1]|]; try discriminate.
        -- destruct (fetchCourses env fuel uid w1) as [[[cs|e2] w2]|];
             discriminate.
        -- intros H. inversion H; subst. split; reflexivity.
      * destruct (fetchCourses env fuel (userid w) w) as [[[cs|e2] w2]|];
          discriminate.
    + intros [Hn Hg]. rewrite Hn, Hg. reflexivity.
  - intros fuel uid w1 Hu Hi. rewrite getCourses_unfold, Hu.
    pose proof (fetchCourses_settles env fuel uid w1 Hi) as Hs.
    destruct (fetchCourses env (S fuel) uid w1) as [[[cs|e1] w2]|];
      [discriminate|discriminate|contradiction].
Qed.

(** A new client whose user id is delivered by [getUserID] and whose fetch
    succeeds; and a client with one course cached that does not know its
    user id, in front of a service that becomes unreachable once it has
    delivered the user id: the cached course is returned. *)
Lemma getCourses_with_user_id_witness :
  (exists w',
      getCourses env_site_info_then_courses 1 logged_in =
      Some (Return [{| id := VNum 7; name := lit "Systems Programming" |}], w') /\
      cachedCourses w' = [{| id := VNum 7; name := lit "Systems Programming" |}]) /\
  (exists w',
      getCourses env_site_info_only 1
        (with_cachedCourses [{| id := VNum 7; name := lit "Systems Programming" |}]
           logged_in) =
      Some (Return [{| id := VNum 7; name := lit "Systems Programming" |}], w') /\
      cachedCourses w' = [{| id := VNum 7; name := lit "Systems Programming" |}]).
Proof.
  split.
  - eexists. split.
    + refine (proj1 (@getCourses_with_user_id env_site_info_then_courses logged_in)
                0 (VNum 42) _
                [course_json 7 (lit "2023 - Systems Programming (SP)")]
                [{| id := VNum 7; name := lit "Systems Programming" |}]
                _ _ _ _ _).
      * vm_compute. reflexivity.
      * reflexivity.
      * reflexivity.
      * reflexivity.
      * reflexivity.
    + reflexivity.
  - eexists.
    refine (proj1 (proj2 (@getCourses_with_user_id env_site_info_only
                            (with_cachedCourses
                               [{| id := VNum 7; name := lit "Systems Programming" |}]
                               logged_in)))
              1 (VNum 42) _ RequestError _ _ _).
    + vm_compute. reflexivity.
    + vm_compute. reflexivity.
Defined.

(** C6 as stated fails: [getCourses] can throw.  On a client that is logged
    in but does not know its user id yet, a network failure makes
    [getUserID] read [userid] off the [undefined] that its call returns,
    ahead of the [try] statement of [getCourses]. *)
Lemma getCourses_throws_counterexample :
  exists w',
    getCourses env_down 3 logged_in = Some (Throw TypeError, w') /\
    cachedCourses w' = cachedCourses logged_in.
Proof.
  eexists. split; [vm_compute; reflexivity|reflexivity].
Qed.

(** C10, amended.  The course cache of a new client is empty; and while it
    is empty, an invocation of [getCourses] that has its user id (stored
    already, or delivered by [getUserID]) and whose fetch of the enrolled
    courses fails returns the empty list and leaves the cache empty. *)
Theorem getCourses_empty_cache env fuel w uid w1 e w2 :
  cachedCourses w = [] ->
  (if nullish (userid w) then getUserID env fuel w
   else Some (Return (userid w), w)) = Some (Return uid, w1) ->
  fetchCourses env fuel uid w1 = Some (Throw e, w2) ->
  (forall logged tok, cachedCourses (newClient logged tok) = []) /\
  getCourses env fuel w = Some (Return [], w2) /\
  cachedCourses w2 = [].
Proof.
  intros Hcache Hu Hf.
  assert (H1 : cachedCourses w1 = []).
  { destruct (nullish (userid w)).
    - apply getUserID_cache in Hu. congruence.
    - inversion Hu; subst. exact Hcache. }
  assert (H2 : cachedCourses w2 = []).
  { apply fetchCourses_cache in Hf. congruence. }
  split; [reflexivity|]. split; [|exact H2].
  rewrite getCourses_unfold, Hu, Hf, H2. reflexivity.
Qed.

Lemma getCourses_empty_cache_witness :
  exists w2,
    getCourses env_site_info_only 1 logged_in = Some (Return [], w2) /\
    cachedCourses w2 = [].
Proof.
  eexists.
  refine (proj2 (@getCourses_empty_cache env_site_info_only 1 logged_in
                   (VNum 42) _ RequestError _ eq_refl _ _)).
  - vm_compute. reflexivity.
  - vm_compute. reflexivity.
Defined.

(** C10 as stated fails: on a new client with nobody logged in, the
    invocation fails before any successful fetch and does not return the
    empty list.  It rejects, because [getUserID] reads [userid] off the
    [undefined] that its call returns. *)
Lemma getCourses_new_client_counterexample :
  cachedCourses logged_out = [] /\
  getCourses env_down 1 logged_out = Some (Throw TypeError, logged_out).
Proof. split; [reflexivity|vm_compute; reflexivity]. Qed.

(** * Further properties of the client *)

(** ** [call] *)

Lemma call_failure_uncaught_run env fuel ws data w e :
  connected w = true ->
  isLogged w = true ->
  failure_of (server env (nreq w) (request_of w ws data)) = Some e ->
  call env (S fuel) ws data false w =
  Some (Throw e,
        logged_event (EvConsoleLog e) (after_request w (request_of w ws data))).
Proof.
  intros Hc Hl Hf. rewrite call_ready by assumption.
  unfold try_catch. rewrite bind_post. cbv zeta.
  destruct (server env (nreq w) (request_of w ws data)) as [| |parsed];
    simpl in Hf.
  - inversion Hf; subst. reflexivity.
  - inversion Hf; subst. reflexivity.
  - destruct (get_prop parsed (lit "errorcode")) as [ec|e'] eqn:Eg;
      [discriminate|].
    inversion Hf; subst. rewrite bind_lift_throw. reflexivity.
Qed.

Lemma call_failure_caught_run env fuel ws data w e :
  connected w = true ->
  isLogged w = true ->
  failure_of (server env (nreq w) (request_of w ws data)) = Some e ->
  call env (S (S (S fuel))) ws data true w =
  Some (Return VUndefined, after_caught_failure w (request_of w ws data) e).
Proof.
  intros Hc Hl Hf. rewrite call_ready by assumption.
  assert (Hbody :
    (parsed <- post env ws data ;;
     errorcode <- lift (get_prop parsed (lit "errorcode")) ;;
     if is_str errorcode (lit "invalidtoken") then
       logged <- createLoginWindow env ;;
       if (logged : bool) then call env (S (S fuel)) ws data true
       else ret VUndefined
     else ret parsed) w
    = Some (Throw e, after_request w (request_of w ws data))).
  { rewrite bind_post. cbv zeta.
    destruct (server env (nreq w) (request_of w ws data)) as [| |parsed];
      simpl in Hf.
    - inversion Hf; subst. reflexivity.
    - inversion Hf; subst. reflexivity.
    - destruct (get_prop parsed (lit "errorcode")) as [ec|e'] eqn:Eg;
        [discriminate|].
      inversion Hf; subst. rewrite bind_lift_throw. reflexivity. }
  unfold try_catch at 1. rewrite Hbody.
  unfold console_log, emit. rewrite !bind_modify.
  rewrite tryConnection_S. unfold try_catch.
  unfold bind at 1. rewrite call_guard by (left; reflexivity).
  reflexivity.
Qed.

(** X1.  With [catchNetworkError] set, [call] never rejects: whatever the
    service and the person at the login window do, and however long the
    call is followed, it does not complete by throwing. *)
Theorem call_catching_never_throws env fuel ws data w :
  call env fuel ws data true w = None \/
  exists v w', call env fuel ws data true w = Some (Return v, w').
Proof.
  destruct (call env fuel ws data true w) as [[[v|e] w']|] eqn:E.
  - right. exists v, w'. reflexivity.
  - exfalso. exact (proj1 (no_throw_call_tryConnection env fuel) ws data w e w' E).
  - left. reflexivity.
Qed.

(** X2.  Without [catchNetworkError], a call whose request fails (the
    network fails, the body is not JSON, or the body is [null]) rethrows the
    error after logging it: the client stays connected, no notification is
    emitted, and exactly one request has been sent. *)
Theorem call_uncaught_failure_rethrows env fuel ws data w e :
  connected w = true ->
  isLogged w = true ->
  failure_of (server env (nreq w) (request_of w ws data)) = Some e ->
  exists w',
    call env (S fuel) ws data false w = Some (Throw e, w') /\
    connected w' = true /\
    log w' = log w ++ [EvPost (request_of w ws data); EvConsoleLog e] /\
    nreq w' = S (nreq w).
Proof.
  intros Hc Hl Hf. eexists. split; [|split; [|split]].
  - apply call_failure_uncaught_run; assumption.
  - exact Hc.
  - simpl. now rewrite <- app_assoc.
  - reflexivity.
Qed.

Lemma call_uncaught_failure_rethrows_witness :
  exists w',
    call env_garbled 1 (lit "core_enrol_get_users_courses") [] false logged_in
    = Some (Throw SyntaxError, w') /\
    connected w' = true /\
    log w' = log logged_in
             ++ [EvPost (request_of logged_in (lit "core_enrol_get_users_courses") []);
                 EvConsoleLog SyntaxError] /\
    nreq w' = S (nreq logged_in).
Proof.
  apply (@call_uncaught_failure_rethrows env_garbled 0
           (lit "core_enrol_get_users_courses") [] logged_in SyntaxError);
    reflexivity.
Defined.

(** X3.  With [catchNetworkError], a reply that is not JSON, or that is the
    JSON value [null], is handled exactly like a network failure: the error
    is logged, the client is marked disconnected and connected again with
    the four notifications, and the caller gets [undefined] after that single
    request. *)
Theorem call_unparsable_reply_disconnects env fuel ws data w e :
  connected w = true ->
  isLogged w = true ->
  (server env (nreq w) (request_of w ws data) = Malformed /\ e = SyntaxError) \/
  (server env (nreq w) (request_of w ws data) = Json VNull /\ e = TypeError) ->
  exists w',
    call env (S (S (S fuel))) ws data true w = Some (Return VUndefined, w') /\
    log w' = log w ++ [EvPost (request_of w ws data);
                       EvConsoleLog e;
                       EvEmit (lit "disconnected") [];
                       EvEmit (lit "network_event") [VBool false];
                       EvEmit (lit "reconnected") [];
                       EvEmit (lit "network_event") [VBool true]] /\
    connected w' = true /\
    nreq w' = S (nreq w).
Proof.
  intros Hc Hl Hr.
  assert (Hf : failure_of (server env (nreq w) (request_of w ws data)) = Some e).
  { destruct Hr as [[-> ->]|[-> ->]]; reflexivity. }
  eexists. split; [|split; [|split]].
  - apply call_failure_caught_run with (e := e); assumption.
  - simpl. repeat rewrite <- app_assoc. reflexivity.
  - reflexivity.
  - reflexivity.
Qed.

Lemma call_unparsable_reply_disconnects_witness :
  exists w',
    call env_garbled 3 (lit "core_course_get_contents") [] true logged_in
    = Some (Return VUndefined, w') /\
    log w' = log logged_in
             ++ [EvPost (request_of logged_in (lit "core_course_get_contents") []);
                 EvConsoleLog SyntaxError;
                 EvEmit (lit "disconnected") [];
                 EvEmit (lit "network_event") [VBool false];
                 EvEmit (lit "reconnected") [];
                 EvEmit (lit "network_event") [VBool true]] /\
    connected w' = true /\
    nreq w' = S (nreq logged_in).
Proof.
  apply (@call_unparsable_reply_disconnects env_garbled 0
           (lit "core_course_get_contents") [] logged_in SyntaxError);
    [reflexivity|reflexivity|left; split; reflexivity].
Defined.

(** X4.  An error reported by the service is not an exception: a body that
    parses to an object whose [errorcode] is a string other than
    ["invalidtoken"] is returned to the caller as it is, after one request,
    whatever [catchNetworkError] says; the client stays connected and no
    login window opens. *)
Theorem call_returns_service_errors env fuel ws data c w props code :
  connected w = true ->
  isLogged w = true ->
  server env (nreq w) (request_of w ws data) = Json (VObj props) ->
  lookup (lit "errorcode") props = VStr code ->
  code <> lit "invalidtoken" ->
  exists w',
    call env (S fuel) ws data c w = Some (Return (VObj props), w') /\
    connected w' = true /\
    log w' = log w ++ [EvPost (request_of w ws data)] /\
    nlogin w' = nlogin w.
Proof.
  intros Hc Hl Hs Hcode Hne. eexists. split; [|split; [|split]].
  - apply call_answer; try assumption.
    rewrite Hs. simpl. rewrite Hcode. simpl.
    now rewrite (str_eqb_neq Hne).
  - exact Hc.
  - reflexivity.
  - reflexivity.
Qed.

Lemma call_returns_service_errors_witness :
  exists w',
    call env_access_error 1 (lit "core_course_get_contents") [] true logged_in
    = Some (Return access_error_body, w') /\
    connected w' = true /\
    log w' = log logged_in
             ++ [EvPost (request_of logged_in (lit "core_course_get_contents") [])] /\
    nlogin w' = nlogin logged_in.
Proof.
  apply (@call_returns_service_errors env_access_error 0
           (lit "core_course_get_contents") [] true logged_in _
           (lit "accessexception"));
    try reflexivity.
  discriminate.
Defined.

(** X5.  A call that settles leaves the [connected] flag as it found it,
    whatever the service answered and whether or not network errors are
    caught: when calls do not overlap, a client that was connected is never
    left disconnected, and a disconnected client is never reconnected. *)
Theorem call_leaves_connected_as_found env fuel ws data c w r w' :
  call env fuel ws data c w = Some (r, w') ->
  connected w' = connected w.
Proof. apply call_restores_connected. Qed.

Lemma call_leaves_connected_as_found_witness :
  connected (after_caught_failure logged_in
               (request_of logged_in (lit "core_course_get_contents") [])
               SyntaxError)
  = connected logged_in.
Proof.
  apply (@call_leaves_connected_as_found env_garbled 3
           (lit "core_course_get_contents") [] true logged_in
           (Return VUndefined)).
  vm_compute. reflexivity.
Defined.

Lemma call_client_data env fuel ws data c w r w' :
  call env fuel ws data c w = Some (r, w') ->
  client_data_is (userid w) (username w) (cachedCourses w) w'.
Proof.
  intros H.
  apply (@inv_call (client_data_is (userid w) (username w) (cachedCourses w)))
    in H; unfold client_data_is in *; auto.
Qed.

(** X6.  [call] never writes the fields of the client that hold what was
    fetched: the user id, the user name and the cached courses are the same
    after a call that settles, whatever happened in between (requests,
    login windows, the reconnect cycle). *)
Theorem call_keeps_client_data env fuel ws data c w r w' :
  call env fuel ws data c w = Some (r, w') ->
  userid w' = userid w /\
  username w' = username w /\
  cachedCourses w' = cachedCourses w.
Proof. apply call_client_data. Qed.

Lemma call_keeps_client_data_witness :
  exists w',
    call env_expired_twice 3 (lit "core_course_get_contents") [] true known_user
    = Some (Return (VArr []), w') /\
    userid w' = userid known_user /\
    username w' = username known_user /\
    cachedCourses w' = cachedCourses known_user.
Proof.
  eexists. split; [vm_compute; reflexivity|].
  apply (@call_keeps_client_data env_expired_twice 3
           (lit "core_course_get_contents") [] true known_user
           (Return (VArr []))).
  vm_compute. reflexivity.
Defined.

(** X7.  [catchNetworkError] does not survive a re-authentication: the
    retry after a successful login is made with the default, so a caller
    that asked for network errors to be thrown gets [undefined] instead when
    the retried request fails at the network level, after the disconnect
    and reconnect notifications. *)
Theorem call_retry_forgets_uncaught env fuel ws data w tok :
  connected w = true ->
  isLogged w = true ->
  invalid_token (server env (nreq w) (request_of w ws data)) = true ->
  loginWindow env (nlogin w) = LoginOk tok ->
  server env (S (nreq w))
    (request_of (after_relogin w (request_of w ws data) tok) ws data)
  = NetworkFailure ->
  call env (S (S (S (S fuel)))) ws data false w =
  Some (Return VUndefined,
        after_network_failure
          (after_relogin w (request_of w ws data) tok)
          (request_of (after_relogin w (request_of w ws data) tok) ws data)).
Proof.
  intros Hc Hl Hi Hw Hs.
  rewrite call_relogin with (tok := tok) by assumption.
  apply call_network_failure_run; [exact Hc|reflexivity|exact Hs].
Qed.

Lemma call_retry_forgets_uncaught_witness :
  call env_expired_then_down 4 (lit "core_enrol_get_users_courses") [] false logged_in
  = Some (Return VUndefined,
          after_network_failure
            (after_relogin logged_in
               (request_of logged_in (lit "core_enrol_get_users_courses") [])
               (lit "fresh"))
            (request_of
               (after_relogin logged_in
                  (request_of logged_in (lit "core_enrol_get_users_courses") [])
                  (lit "fresh"))
               (lit "core_enrol_get_users_courses") [])).
Proof.
  apply (@call_retry_forgets_uncaught env_expired_then_down 0
           (lit "core_enrol_get_users_courses") [] logged_in (lit "fresh"));
    reflexivity.
Defined.

(** ** [getUserID] *)

Lemma get_prop_throws v k e : get_prop v k = Throw e -> e = TypeError.
Proof. destruct v; simpl; intros H; inversion H; reflexivity. Qed.

Lemma get_prop_total v k k' a :
  get_prop v k = Return a -> exists b, get_prop v k' = Return b.
Proof. destruct v; simpl; intros H; try discriminate; eexists; reflexivity. Qed.

(** X8.  On an ordinary reply [getUserID] returns the reply's [userid],
    stores it together with the [fullname], and emits [username] once with
    that full name, after a single request.  It does not check either
    field: a reply that lacks them (an error object, for one) stores and
    returns [undefined] instead of failing. *)
Theorem getUserID_stores_reply env fuel w v u n :
  connected w = true ->
  isLogged w = true ->
  answer (server env (nreq w)
            (request_of w (lit "core_webservice_get_site_info") [])) = Some v ->
  get_prop v (lit "userid") = Return u ->
  get_prop v (lit "fullname") = Return n ->
  exists w',
    getUserID env (S fuel) w = Some (Return u, w') /\
    userid w' = u /\
    username w' = n /\
    log w' = log w ++ [EvPost (request_of w (lit "core_webservice_get_site_info") []);
                       EvEmit (lit "username") [n]] /\
    cachedCourses w' = cachedCourses w.
Proof.
  intros Hc Hl Ha Hu Hn. eexists. split.
  { unfold getUserID. unfold bind at 1.
    rewrite call_answer with (v := v) by assumption.
    rewrite Hu, bind_lift_return, Hn, bind_lift_return.
    unfold emit. rewrite !bind_modify. reflexivity. }
  repeat split. simpl. now rewrite <- app_assoc.
Qed.

Lemma getUserID_stores_reply_witness :
  exists w',
    getUserID env_access_error 1 logged_in = Some (Return VUndefined, w') /\
    userid w' = VUndefined /\
    username w' = VUndefined /\
    log w' = log logged_in
             ++ [EvPost (request_of logged_in (lit "core_webservice_get_site_info") []);
                 EvEmit (lit "username") [VUndefined]] /\
    cachedCourses w' = cachedCourses logged_in.
Proof.
  apply (@getUserID_stores_reply env_access_error 0 logged_in access_error_body
           VUndefined VUndefined);
    reflexivity.
Defined.

Lemma getUserID_throw env fuel w e w' :
  getUserID env fuel w = Some (Throw e, w') ->
  e = TypeError /\
  userid w' = userid w /\
  username w' = username w /\
  cachedCourses w' = cachedCourses w.
Proof.
  unfold getUserID. unfold bind at 1.
  destruct (call env fuel (lit "core_webservice_get_site_info") [] true w)
    as [[[res|e1] w1]|] eqn:E; [| |discriminate].
  - apply call_client_data in E. destruct E as (Eu & En & Ec).
    destruct (get_prop res (lit "userid")) as [u|e2] eqn:Gu.
    + destruct (@get_prop_total res (lit "userid") (lit "fullname") u Gu) as [n Gn].
      rewrite bind_lift_return, Gn, bind_lift_return.
      unfold emit. rewrite !bind_modify. discriminate.
    + rewrite bind_lift_throw. intros H. inversion H; subst.
      apply get_prop_throws in Gu. auto.
  - exfalso.
    exact (proj1 (no_throw_call_tryConnection env fuel) _ _ _ _ _ E).
Qed.

(** X9.  [getUserID] rejects with nothing but a [TypeError] (its call never
    throws, so what fails is reading [userid] off [undefined] or [null]), and
    when it does, the stored user id, the user name and the cached courses
    are what they were. *)
Theorem getUserID_rejects_with_TypeError env fuel w e w' :
  getUserID env fuel w = Some (Throw e, w') ->
  e = TypeError /\
  userid w' = userid w /\
  username w' = username w /\
  cachedCourses w' = cachedCourses w.
Proof. apply getUserID_throw. Qed.

Lemma getUserID_rejects_with_TypeError_witness :
  exists w',
    getUserID env_down 3 logged_in = Some (Throw TypeError, w') /\
    TypeError = TypeError /\
    userid w' = userid logged_in /\
    username w' = username logged_in /\
    cachedCourses w' = cachedCourses logged_in.
Proof.
  eexists. split; [vm_compute; reflexivity|].
  apply (@getUserID_rejects_with_TypeError env_down 3 logged_in).
  vm_compute. reflexivity.
Defined.

(** ** [getCourses], continued *)

(** X10.  Whenever [getCourses] returns, what it returns is what the cache
    holds afterwards: the freshly fetched list that it has just stored, or
    the cached list that it fell back to. *)
Theorem getCourses_returns_the_cache env fuel w cs w' :
  getCourses env fuel w = Some (Return cs, w') ->
  cachedCourses w' = cs.
Proof.
  rewrite getCourses_unfold.
  destruct (if nullish (userid w) then getUserID env fuel w
            else Some (Return (userid w), w)) as [[[uid|e] w1]|];
    try discriminate.
  destruct (fetchCourses env fuel uid w1) as [[[cs1|e] w2]|]; try discriminate;
    intros H; inversion H; subst; reflexivity.
Qed.

Lemma getCourses_returns_the_cache_witness :
  exists w',
    getCourses env_down 1 cached_user
    = Some (Return [{| id := VNum 7; name := lit "Systems Programming" |}], w') /\
    cachedCourses w' = [{| id := VNum 7; name := lit "Systems Programming" |}].
Proof.
  eexists. split; [vm_compute; reflexivity|].
  apply (@getCourses_returns_the_cache env_down 1 cached_user).
  vm_compute. reflexivity.
Defined.

(** X11.  [getCourses] rejects only while the user id is unknown, only with
    a [TypeError] (the one [getUserID] raises), and then the user id, the
    user name and the cached courses are what they were. *)
Theorem getCourses_rejects_only_without_user env fuel w e w' :
  getCourses env fuel w = Some (Throw e, w') ->
  nullish (userid w) = true /\
  e = TypeError /\
  userid w' = userid w /\
  username w' = username w /\
  cachedCourses w' = cachedCourses w.
Proof.
  rewrite getCourses_unfold.
  destruct (nullish (userid w)) eqn:Hn.
  - destruct (getUserID env fuel w) as [[[uid|e1] w1]|] eqn:E; try discriminate.
    + destruct (fetchCourses env fuel uid w1) as [[[cs1|e2] w2]|];
        discriminate.
    + intros H. inversion H; subst.
      apply getUserID_throw in E. tauto.
  - destruct (fetchCourses env fuel (userid w) w) as [[[cs1|e2] w2]|];
      discriminate.
Qed.

Lemma getCourses_rejects_only_without_user_witness :
  exists w',
    getCourses env_down 3 logged_in = Some (Throw TypeError, w') /\
    nullish (userid logged_in) = true /\
    TypeError = TypeError /\
    userid w' = userid logged_in /\
    username w' = username logged_in /\
    cachedCourses w' = cachedCourses logged_in.
Proof.
  eexists. split; [vm_compute; reflexivity|].
  apply (@getCourses_rejects_only_without_user env_down 3 logged_in).
  vm_compute. reflexivity.
Defined.

Lemma array_map_rows rows :
  array_map to_course (map json_of_row rows) = Return (map course_of_row rows).
Proof.
  induction rows as [|r rows IH]; [reflexivity|].
  cbn [map array_map].
  change (to_course (json_of_row r)) with (Return (course_of_row r)).
  now rewrite IH.
Qed.

Lemma getCourses_known env fuel w :
  nullish (userid w) = false ->
  getCourses env fuel w =
  match fetchCourses env fuel (userid w) w with
  | Some (Return cs, w2) => Some (Return cs, with_cachedCourses cs w2)
  | Some (Throw _, w2) => Some (Return (cachedCourses w2), w2)
  | None => None
  end.
Proof. intros Hu. now rewrite getCourses_unfold, Hu. Qed.

(** X12.  From a reply that lists courses as objects with an [id] and a
    string [fullname], [getCourses] builds one course per entry, in the
    order of the reply, with the id untouched and the name normalized, and
    stores that list in the cache, after a single request. *)
Theorem getCourses_lists_every_row env fuel w rows :
  nullish (userid w) = false ->
  connected w = true ->
  isLogged w = true ->
  server env (nreq w)
    (request_of w (lit "core_enrol_get_users_courses") [(lit "userid", userid w)])
  = Json (VArr (map json_of_row rows)) ->
  exists w',
    getCourses env (S fuel) w = Some (Return (map course_of_row rows), w') /\
    cachedCourses w' = map course_of_row rows /\
    nreq w' = S (nreq w).
Proof.
  intros Hu Hc Hl Hs. eexists. split.
  { rewrite getCourses_known by exact Hu.
    rewrite fetchCourses_array with (l := map json_of_row rows)
                                    (cs := map course_of_row rows);
      auto using array_map_rows. }
  split; reflexivity.
Qed.

Lemma getCourses_lists_every_row_witness :
  exists w',
    getCourses env_courses 1 known_user
    = Some (Return (map course_of_row [(7%Z, lit "2023 - Systems Programming (SP)")]), w') /\
    cachedCourses w'
    = map course_of_row [(7%Z, lit "2023 - Systems Programming (SP)")] /\
    nreq w' = S (nreq known_user).
Proof.
  apply (@getCourses_lists_every_row env_courses 0 known_user
           [(7%Z, lit "2023 - Systems Programming (SP)")]);
    reflexivity.
Defined.

Lemma to_course_without_name c :
  (forall s, get_prop c (lit "fullname") <> Return (VStr s)) ->
  to_course c = Throw TypeError.
Proof.
  intros H. unfold to_course.
  destruct (get_prop c (lit "id")) as [i|e] eqn:Gi.
  - cbn [cbind].
    destruct (get_prop c (lit "fullname")) as [f|e] eqn:Gf.
    + cbn [cbind]. destruct f; try reflexivity.
      exfalso. exact (H s eq_refl).
    + cbn [cbind]. now rewrite (get_prop_throws _ _ Gf).
  - cbn [cbind]. now rewrite (get_prop_throws _ _ Gi).
Qed.

Lemma array_map_throws {A B} (f : A -> completion B) l1 c l2 e :
  f c = Throw e -> exists e', array_map f (l1 ++ c :: l2) = Throw e'.
Proof.
  intros Hc. induction l1 as [|x l1 [e' IH]]; simpl.
  - rewrite Hc. eauto.
  - destruct (f x); [rewrite IH|]; eauto.
Qed.

(** X13.  The list is all or nothing: if a single entry of the reply has no
    string [fullname] (the field is missing, [null] or a number, or the
    entry itself is [null]), [getCourses] drops every course of that reply
    and returns the cached list, leaving the cache as it was. *)
Theorem getCourses_one_entry_without_name env fuel w l1 c l2 :
  nullish (userid w) = false ->
  connected w = true ->
  isLogged w = true ->
  server env (nreq w)
    (request_of w (lit "core_enrol_get_users_courses") [(lit "userid", userid w)])
  = Json (VArr (l1 ++ c :: l2)) ->
  (forall s, get_prop c (lit "fullname") <> Return (VStr s)) ->
  exists w',
    getCourses env (S fuel) w = Some (Return (cachedCourses w), w') /\
    cachedCourses w' = cachedCourses w.
Proof.
  intros Hu Hc Hl Hs Hbad.
  destruct (@array_map_throws value Course to_course l1 c l2 TypeError
              (@to_course_without_name c Hbad)) as [e' He'].
  eexists. split.
  { rewrite getCourses_known by exact Hu.
    unfold fetchCourses, bind.
    rewrite call_answer with (v := VArr (l1 ++ c :: l2));
      [|exact Hc|exact Hl|rewrite Hs; apply answer_array].
    unfold lift. rewrite He'. reflexivity. }
  reflexivity.
Qed.

Lemma getCourses_one_entry_without_name_witness :
  exists w',
    getCourses env_nameless_course 1 cached_user
    = Some (Return (cachedCourses cached_user), w') /\
    cachedCourses w' = cachedCourses cached_user.
Proof.
  apply (@getCourses_one_entry_without_name env_nameless_course 0 cached_user
           [course_json 7 (lit "2023 - Systems Programming (SP)")]
           (VObj [(lit "id", VNum 8)]) []);
    try reflexivity.
  intros s. discriminate.
Defined.

(** X14.  A request of [getCourses] that fails (network failure, a body
    that is not JSON, or [null]) is not treated as an outage: the client
    stays connected, nothing is emitted, the error is only logged, and the
    cached list is returned. *)
Theorem getCourses_failure_is_silent env fuel w e :
  nullish (userid w) = false ->
  connected w = true ->
  isLogged w = true ->
  failure_of
    (server env (nreq w)
       (request_of w (lit "core_enrol_get_users_courses") [(lit "userid", userid w)]))
  = Some e ->
  exists w',
    getCourses env (S fuel) w = Some (Return (cachedCourses w), w') /\
    connected w' = true /\
    log w' = log w
             ++ [EvPost (request_of w (lit "core_enrol_get_users_courses")
                           [(lit "userid", userid w)]);
                 EvConsoleLog e] /\
    cachedCourses w' = cachedCourses w.
Proof.
  intros Hu Hc Hl Hf. eexists. split.
  { rewrite getCourses_known by exact Hu.
    unfold fetchCourses, bind.
    rewrite call_failure_uncaught_run with (e := e) by assumption.
    reflexivity. }
  split; [exact Hc|]. split; [|reflexivity].
  simpl. now rewrite <- app_assoc.
Qed.

Lemma getCourses_failure_is_silent_witness :
  exists w',
    getCourses env_down 1 cached_user = Some (Return (cachedCourses cached_user), w') /\
    connected w' = true /\
    log w' = log cached_user
             ++ [EvPost (request_of cached_user (lit "core_enrol_get_users_courses")
                           [(lit "userid", userid cached_user)]);
                 EvConsoleLog RequestError] /\
    cachedCourses w' = cachedCourses cached_user.
Proof.
  apply (@getCourses_failure_is_silent env_down 0 cached_user RequestError);
    reflexivity.
Defined.

(** X15.  On a client that does not know its user id, [getCourses] first
    asks for the site info and then for the courses of the user id it was
    given: two requests, the second carrying that id; the id and the full
    name are stored, [username] is emitted once, and the normalized list is
    returned and cached. *)
Theorem getCourses_fetches_user_first env fuel w v u n l cs :
  nullish (userid w) = true ->
  connected w = true ->
  isLogged w = true ->
  answer (server env (nreq w)
            (request_of w (lit "core_webservice_get_site_info") [])) = Some v ->
  get_prop v (lit "userid") = Return u ->
  get_prop v (lit "fullname") = Return n ->
  server env (S (nreq w))
    (request_of w (lit "core_enrol_get_users_courses") [(lit "userid", u)])
  = Json (VArr l) ->
  array_map to_course l = Return cs ->
  exists w',
    getCourses env (S fuel) w = Some (Return cs, w') /\
    userid w' = u /\
    username w' = n /\
    cachedCourses w' = cs /\
    log w' = log w
             ++ [EvPost (request_of w (lit "core_webservice_get_site_info") []);
                 EvEmit (lit "username") [n];
                 EvPost (request_of w (lit "core_enrol_get_users_courses")
                           [(lit "userid", u)])].
Proof.
  intros Hu Hc Hl Ha Gu Gn Hs Hm. eexists. split.
  { rewrite getCourses_unfold, Hu.
    unfold getUserID. unfold bind at 1.
    rewrite call_answer with (v := v) by assumption.
    rewrite Gu, bind_lift_return, Gn, bind_lift_return.
    unfold emit. rewrite !bind_modify. unfold ret at 1.
    rewrite fetchCourses_array with (l := l) (cs := cs);
      [reflexivity|exact Hc|exact Hl|exact Hs|exact Hm]. }
  repeat split. simpl. repeat rewrite <- app_assoc. reflexivity.
Qed.

Lemma getCourses_fetches_user_first_witness :
  exists w',
    getCourses env_site_info_then_courses 1 logged_in
    = Some (Return [{| id := VNum 7; name := lit "Systems Programming" |}], w') /\
    userid w' = VNum 42 /\
    username w' = VStr (lit "Ada Lovelace") /\
    cachedCourses w' = [{| id := VNum 7; name := lit "Systems Programming" |}] /\
    log w' = log logged_in
             ++ [EvPost (request_of logged_in (lit "core_webservice_get_site_info") []);
                 EvEmit (lit "username") [VStr (lit "Ada Lovelace")];
                 EvPost (request_of logged_in (lit "core_enrol_get_users_courses")
                           [(lit "userid", VNum 42)])].
Proof.
  apply (@getCourses_fetches_user_first env_site_info_then_courses 0 logged_in
           (VObj [(lit "userid", VNum 42);
                  (lit "fullname", VStr (lit "Ada Lovelace"))])
           (VNum 42) (VStr (lit "Ada Lovelace"))
           [course_json 7 (lit "2023 - Systems Programming (SP)")]
           [{| id := VNum 7; name := lit "Systems Programming" |}]);
    reflexivity.
Defined.

(** X16.  A client that knows its user id and is marked disconnected, or
    has nobody logged in, serves the cached list without doing anything
    else: no request, no notification, no change of state. *)
Theorem getCourses_offline_serves_cache env fuel w :
  nullish (userid w) = false ->
  connected w = false \/ isLogged w = false ->
  getCourses env (S fuel) w = Some (Return (cachedCourses w), w).
Proof.
  intros Hu Hoff. rewrite getCourses_known by exact Hu.
  unfold fetchCourses, bind. rewrite call_guard by exact Hoff. reflexivity.
Qed.

Lemma getCourses_offline_serves_cache_witness :
  getCourses env_courses 1 (with_connected false cached_user)
  = Some (Return (cachedCourses (with_connected false cached_user)),
          with_connected false cached_user).
Proof.
  apply (@getCourses_offline_serves_cache env_courses 0
           (with_connected false cached_user)).
  - reflexivity.
  - left. reflexivity.
Defined.

(** ** [getFileInfos], continued *)

Lemma only_TypeError_return {A} (a : A) : only_TypeError (Return a).
Proof. intros e H. discriminate. Qed.

Lemma only_TypeError_throw {A} : only_TypeError (@Throw A TypeError).
Proof. intros e H. now inversion H. Qed.

Lemma only_TypeError_cbind {A B} (c : completion A) (f : A -> completion B) :
  only_TypeError c -> (forall a, only_TypeError (f a)) -> only_TypeError (cbind c f).
Proof.
  intros Hc Hf e H. destruct c as [a|e1]; simpl in H.
  - exact (Hf a e H).
  - inversion H; subst. now apply Hc.
Qed.

Lemma only_TypeError_get_prop v k : only_TypeError (get_prop v k).
Proof. intros e H. exact (get_prop_throws _ _ H). Qed.

Lemma only_TypeError_iterate v : only_TypeError (iterate v).
Proof. intros e H. destruct v; simpl in H; inversion H; reflexivity. Qed.

Lemma only_TypeError_path_join a b : only_TypeError (path_join_values a b).
Proof. intros e H. destruct a, b; simpl in H; inversion H; reflexivity. Qed.

Lemma only_TypeError_for_files modulename contents :
  forall files, only_TypeError (for_files modulename contents files).
Proof.
  induction contents as [|file rest IH]; intros files.
  - apply only_TypeError_return.
  - cbn [for_files].
    apply only_TypeError_cbind; [apply only_TypeError_get_prop|]. intros ty.
    destruct (is_str ty (lit "file")); [|apply IH].
    repeat (apply only_TypeError_cbind; [apply only_TypeError_get_prop|]; intros ?).
    apply only_TypeError_cbind; [apply only_TypeError_path_join|]. intros p.
    apply IH.
Qed.

Lemma only_TypeError_for_modules modules :
  forall files, only_TypeError (for_modules modules files).
Proof.
  induction modules as [|m rest IH]; intros files.
  - apply only_TypeError_return.
  - cbn [for_modules].
    apply only_TypeError_cbind; [apply only_TypeError_get_prop|]. intros n.
    apply only_TypeError_cbind; [apply only_TypeError_get_prop|]. intros c.
    destruct (negb (truthy c)); [apply IH|].
    apply only_TypeError_cbind; [apply only_TypeError_iterate|]. intros es.
    apply only_TypeError_cbind; [apply only_TypeError_for_files|]. intros fs.
    apply IH.
Qed.

Lemma only_TypeError_array_find sections :
  only_TypeError (array_find is_materials sections).
Proof.
  induction sections as [|s rest IH]; intros e H; simpl in H; [discriminate|].
  unfold is_materials at 1 in H.
  destruct (get_prop s (lit "name")) as [n|e1] eqn:G; simpl in H.
  - destruct (is_str n materials); [discriminate|]. exact (IH e H).
  - inversion H; subst. exact (get_prop_throws _ _ G).
Qed.

Lemma only_TypeError_files_of_contents v : only_TypeError (files_of_contents v).
Proof.
  destruct v; try apply only_TypeError_throw.
  unfold files_of_contents.
  apply only_TypeError_cbind; [apply only_TypeError_array_find|]. intros [mat|].
  - apply only_TypeError_cbind; [apply only_TypeError_get_prop|]. intros ms.
    apply only_TypeError_cbind; [apply only_TypeError_iterate|]. intros l.
    apply only_TypeError_for_modules.
  - apply only_TypeError_return.
Qed.

(** X17.  Whatever [getFileInfos] is answered, when it settles the client is
    connected exactly if it was before, and the user id, the user name and
    the cached courses are untouched; and when it rejects, the error is a
    [TypeError], never the network or parse error of the request. *)
Theorem getFileInfos_settles_cleanly env fuel courseid w r w' :
  getFileInfos env fuel courseid w = Some (r, w') ->
  only_TypeError r /\
  connected w' = connected w /\
  userid w' = userid w /\
  username w' = username w /\
  cachedCourses w' = cachedCourses w.
Proof.
  unfold getFileInfos, bind.
  destruct (call env fuel (lit "core_course_get_contents")
              [(lit "courseid", VNum courseid)] true w)
    as [[[v|e] w1]|] eqn:E; [| |discriminate].
  - unfold lift. intros H. inversion H; subst.
    split; [apply only_TypeError_files_of_contents|].
    split; [exact (call_restores_connected _ _ _ _ _ _ E)|].
    exact (call_client_data _ _ _ _ _ _ E).
  - exfalso.
    exact (proj1 (no_throw_call_tryConnection env fuel) _ _ _ _ _ E).
Qed.

Lemma getFileInfos_settles_cleanly_witness :
  exists w',
    getFileInfos env_down 3 7 known_user = Some (Throw TypeError, w') /\
    only_TypeError (@Throw (list FileInfo) TypeError) /\
    connected w' = connected known_user /\
    userid w' = userid known_user /\
    username w' = username known_user /\
    cachedCourses w' = cachedCourses known_user.
Proof.
  eexists. split; [vm_compute; reflexivity|].
  apply (@getFileInfos_settles_cleanly env_down 3 7 known_user).
  vm_compute. reflexivity.
Defined.



Lemma find_first_materials pre mat post :
  Forall (fun s => s_name s <> materials) pre ->
  s_name mat = materials ->
  find is_materials_section (pre ++ mat :: post) = Some mat.
Proof.
  intros Hpre Hmat. induction Hpre as [|s pre Hs _ IH]; simpl.
  - unfold is_materials_section. rewrite Hmat. now rewrite str_eqb_refl.
  - unfold is_materials_section at 1. now rewrite (str_eqb_neq Hs).
Qed.

(** X19.  Only the first section called [materials] counts: when the
    contents hold several, the files of the later ones (and of every other
    section) are not listed. *)
Theorem getFileInfos_first_materials_only env fuel courseid w pre mat post :
  connected w = true ->
  isLogged w = true ->
  server env (nreq w)
    (request_of w (lit "core_course_get_contents") [(lit "courseid", VNum courseid)])
  = Json (json_of_contents (pre ++ mat :: post)) ->
  Forall (fun s => s_name s <> materials) pre ->
  s_name mat = materials ->
  getFileInfos env (S fuel) courseid w =
  Some (Return (flat_map files_of_module (s_modules mat)),
        after_request w
          (request_of w (lit "core_course_get_contents")
             [(lit "courseid", VNum courseid)])).
Proof.
  intros Hc Hl Hs Hpre Hmat.
  rewrite getFileInfos_typed with (cs := pre ++ mat :: post) by assumption.
  unfold materials_files. now rewrite find_first_materials.
Qed.

Lemma getFileInfos_first_materials_only_witness :
  getFileInfos (env_contents twice_materials) 1 7 logged_in =
  Some (Return [file_of_entry (lit "Lecture 1") slides],
        after_request logged_in
          (request_of logged_in (lit "core_course_get_contents")
             [(lit "courseid", VNum 7)])).
Proof.
  apply (@getFileInfos_first_materials_only (env_contents twice_materials) 0 7
           logged_in
           [{| s_id := 1; s_name := lit "Forum"; s_modules := [] |}]
           {| s_id := 2; s_name := materials;
              s_modules := [{| m_id := 10; m_name := lit "Lecture 1";
                               m_contents := Some [slides] |}] |}
           [{| s_id := 3; s_name := materials;
               s_modules := [{| m_id := 11; m_name := lit "Lecture 2";
                                m_contents := Some [slides] |}] |}]);
    try reflexivity.
  repeat constructor. discriminate.
Defined.

(** ** File paths *)

Lemma path_normalize_not_empty path : path_normalize path <> [].
Proof.
  destruct path as [|c path]; [discriminate|].
  unfold path_normalize.
  destruct (normalizeString (c :: path) (negb (N.eqb c slash))) as [|x p];
    destruct (N.eqb c slash); destruct (N.eqb (last (c :: path) 0%N) slash);
    discriminate.
Qed.

Lemma path_join_not_empty a b : path_join a b <> [].
Proof.
  destruct a, b; unfold path_join; try apply path_normalize_not_empty.
  discriminate.
Qed.

Lemma path_join_values_not_empty a b p :
  path_join_values a b = Return p -> p <> [].
Proof.
  destruct a, b; simpl; intros H; inversion H; subst.
  apply path_join_not_empty.
Qed.

Lemma for_files_paths modulename contents :
  forall files fs,
    Forall (fun f => filepath f <> []) files ->
    for_files modulename contents files = Return fs ->
    Forall (fun f => filepath f <> []) fs.
Proof.
  induction contents as [|file rest IH]; intros files fs Hfiles H.
  - inversion H; subst. exact Hfiles.
  - cbn [for_files] in H.
    destruct (get_prop file (lit "type")) as [ty|]; [|discriminate].
    cbn [cbind] in H.
    destruct (is_str ty (lit "file")); [|exact (IH _ _ Hfiles H)].
    destruct (get_prop file (lit "filename")) as [v1|]; [|discriminate].
    destruct (get_prop file (lit "filepath")) as [v2|]; [|discriminate].
    destruct (get_prop file (lit "filesize")) as [v3|]; [|discriminate].
    destruct (get_prop file (lit "fileurl")) as [v4|]; [|discriminate].
    destruct (get_prop file (lit "timecreated")) as [v5|]; [|discriminate].
    destruct (get_prop file (lit "timemodified")) as [v6|]; [|discriminate].
    cbn [cbind] in H.
    destruct (path_join_values modulename v2) as [p|] eqn:Ep; [|discriminate].
    cbn [cbind] in H.
    refine (IH _ _ _ H).
    apply Forall_app. split; [exact Hfiles|].
    constructor; [|constructor].
    cbn [filepath]. exact (@path_join_values_not_empty modulename v2 p Ep).
Qed.

Lemma for_modules_paths modules :
  forall files fs,
    Forall (fun f => filepath f <> []) files ->
    for_modules modules files = Return fs ->
    Forall (fun f => filepath f <> []) fs.
Proof.
  induction modules as [|m rest IH]; intros files fs Hfiles H.
  - inversion H; subst. exact Hfiles.
  - cbn [for_modules] in H.
    destruct (get_prop m (lit "name")) as [n|]; [|discriminate].
    destruct (get_prop m (lit "contents")) as [c|]; [|discriminate].
    cbn [cbind] in H.
    destruct (negb (truthy c)); [exact (IH _ _ Hfiles H)|].
    destruct (iterate c) as [es|]; [|discriminate].
    cbn [cbind] in H.
    destruct (for_files n es files) as [fs1|] eqn:Ef; [|discriminate].
    cbn [cbind] in H.
    exact (IH _ _ (@for_files_paths n es files fs1 Hfiles Ef) H).
Qed.

Lemma files_of_contents_paths v fs :
  files_of_contents v = Return fs ->
  Forall (fun f => filepath f <> []) fs.
Proof.
  destruct v; try discriminate. unfold files_of_contents.
  destruct (array_find is_materials elems) as [[mat|]|]; cbn [cbind];
    [| |discriminate].
  - destruct (get_prop mat (lit "modules")) as [ms|]; [|discriminate].
    cbn [cbind].
    destruct (iterate ms) as [l|]; [|discriminate].
    cbn [cbind]. apply for_modules_paths. constructor.
  - intros H. inversion H; subst. constructor.
Qed.

(** X20.  No file that [getFileInfos] returns has the empty string for its
    file path, whatever the reply was: [path.join] of an empty module name
    and an empty path gives ["."]. *)
Theorem getFileInfos_paths_not_empty env fuel courseid w fs w' :
  getFileInfos env fuel courseid w = Some (Return fs, w') ->
  Forall (fun f => filepath f <> []) fs.
Proof.
  unfold getFileInfos, bind.
  destruct (call env fuel (lit "core_course_get_contents")
              [(lit "courseid", VNum courseid)] true w)
    as [[[v|e] w1]|]; try discriminate.
  unfold lift. intros H. inversion H as [[Hf Hw]].
  exact (@files_of_contents_paths v fs Hf).
Qed.

Lemma getFileInfos_paths_not_empty_witness :
  Forall (fun f => filepath f <> [])
    [file_of_entry (lit "Lecture 1") slides].
Proof.
  apply (@getFileInfos_paths_not_empty (env_contents lecture_contents) 1 7
           logged_in _
           (after_request logged_in
              (request_of logged_in (lit "core_course_get_contents")
                 [(lit "courseid", VNum 7)]))).
  vm_compute. reflexivity.
Defined.

Lemma split_slash_plain n :
  ~ In slash n ->
  forall rest acc,
    split_slash (n ++ slash :: rest) acc = (rev acc ++ n) :: split_slash rest [].
Proof.
  induction n as [|c n IH]; intros Hn rest acc.
  - simpl. now rewrite app_nil_r.
  - simpl. destruct (N.eqb c slash) eqn:E.
    + apply N.eqb_eq in E. exfalso. apply Hn. left. now symmetry.
    + rewrite IH by (intros Hin; apply Hn; now right).
      simpl. now rewrite <- app_assoc.
Qed.

Lemma split_slash_end n :
  ~ In slash n ->
  forall acc, split_slash n acc = [rev acc ++ n].
Proof.
  induction n as [|c n IH]; intros Hn acc.
  - simpl. now rewrite app_nil_r.
  - simpl. destruct (N.eqb c slash) eqn:E.
    + apply N.eqb_eq in E. exfalso. apply Hn. left. now symmetry.
    + rewrite IH by (intros Hin; apply Hn; now right).
      simpl. now rewrite <- app_assoc.
Qed.

Lemma normalize_step_plain allow stack s :
  plain_segment s -> normalize_step allow stack s = s :: stack.
Proof.
  intros (Hne & _ & Hd & Hdd). unfold normalize_step.
  destruct s as [|c s]; [contradiction|]. cbn [is_empty orb].
  now rewrite (str_eqb_neq Hd), (str_eqb_neq Hdd).
Qed.

Lemma plain_head s c rest : plain_segment s -> s = c :: rest -> N.eqb c slash = false.
Proof.
  intros (_ & Hs & _) ->. apply N.eqb_neq. intros ->. apply Hs. now left.
Qed.

Lemma plain_last s : plain_segment s -> N.eqb (last s 0%N) slash = false.
Proof.
  intros (Hne & Hs & _). apply N.eqb_neq. intros E. apply Hs.
  rewrite <- E. destruct (exists_last Hne) as (l & a & ->).
  rewrite last_last. apply in_or_app. right. now left.
Qed.

Lemma path_normalize_relative c rest p :
  N.eqb c slash = false ->
  normalizeString (c :: rest) true = p ->
  p <> [] ->
  path_normalize (c :: rest) =
  if N.eqb (last (c :: rest) 0%N) slash then p ++ [slash] else p.
Proof.
  intros Hc Hp Hne. unfold path_normalize. rewrite Hc. cbn [negb].
  rewrite Hp. destruct p; [contradiction|reflexivity].
Qed.

Lemma normalize_step_nil allow stack : normalize_step allow stack [] = stack.
Proof. reflexivity. Qed.

Lemma normalizeString_plain1 n :
  plain_segment n -> normalizeString n true = n.
Proof.
  intros Hn. pose proof Hn as (Hne & Hslash & _).
  unfold normalizeString. rewrite split_slash_end by exact Hslash. simpl.
  now rewrite normalize_step_plain.
Qed.

Lemma normalizeString_plain2 n :
  plain_segment n -> normalizeString (n ++ [slash; slash]) true = n.
Proof.
  intros Hn. pose proof Hn as (Hne & Hslash & _).
  unfold normalizeString. rewrite split_slash_plain by exact Hslash. simpl.
  rewrite !normalize_step_nil.
  now rewrite (@normalize_step_plain true [] n Hn).
Qed.

Lemma normalizeString_plain3 n folder :
  plain_segment n -> plain_segment folder ->
  normalizeString (n ++ slash :: slash :: folder ++ [slash]) true
  = n ++ slash :: folder.
Proof.
  intros Hn Hf. pose proof Hn as (Hne & Hslash & _).
  pose proof Hf as (Hfne & Hfslash & _).
  unfold normalizeString. rewrite split_slash_plain by exact Hslash.
  change (slash :: folder ++ [slash]) with ([] ++ slash :: folder ++ [slash]).
  rewrite split_slash_plain by (intros []).
  rewrite split_slash_plain by exact Hfslash.
  simpl. rewrite !normalize_step_nil.
  rewrite (@normalize_step_plain true [] n Hn).
  rewrite (@normalize_step_plain true [n] folder Hf).
  simpl. destruct n; [contradiction|].
  destruct folder; [contradiction|]. reflexivity.
Qed.

(** X21.  Where the files of a module land: for a module name that is a
    plain path segment, an entry with the empty file path is put at the
    module name itself, an entry with the file path ["/"] at the module name
    followed by a slash, and an entry with the file path ["/<folder>/"] at
    the module name, a slash, the folder and a slash. *)
Theorem path_join_plain_module n :
  plain_segment n ->
  path_join n [] = n /\
  path_join n [slash] = n ++ [slash] /\
  (forall folder,
      plain_segment folder ->
      path_join n (slash :: folder ++ [slash]) = n ++ slash :: folder ++ [slash]).
Proof.
  intros Hn. pose proof Hn as (Hne & Hslash & _).
  destruct n as [|c n']; [contradiction|].
  assert (Hhead : N.eqb c slash = false) by exact (plain_head Hn eq_refl).
  split; [|split].
  - change (path_join (c :: n') []) with (path_normalize (c :: n')).
    rewrite path_normalize_relative with (p := c :: n');
      [|exact Hhead|exact (normalizeString_plain1 Hn)|discriminate].
    now rewrite (plain_last Hn).
  - change (path_join (c :: n') [slash])
      with (path_normalize (c :: (n' ++ [slash; slash]))).
    rewrite path_normalize_relative with (p := c :: n');
      [|exact Hhead|exact (normalizeString_plain2 Hn)|discriminate].
    change (c :: n' ++ [slash; slash]) with ((c :: n') ++ [slash; slash]).
    replace ((c :: n') ++ [slash; slash]) with (((c :: n') ++ [slash]) ++ [slash])
      by (now rewrite <- app_assoc).
    rewrite last_last. reflexivity.
  - intros folder Hf.
    change (path_join (c :: n') (slash :: folder ++ [slash]))
      with (path_normalize (c :: (n' ++ slash :: slash :: folder ++ [slash]))).
    rewrite path_normalize_relative with (p := (c :: n') ++ slash :: folder);
      [|exact Hhead|exact (normalizeString_plain3 Hn Hf)|discriminate].
    change (c :: n' ++ slash :: slash :: folder ++ [slash])
      with ((c :: n') ++ slash :: slash :: folder ++ [slash]).
    replace ((c :: n') ++ slash :: slash :: folder ++ [slash])
      with (((c :: n') ++ slash :: slash :: folder) ++ [slash])
      by (now rewrite <- app_assoc).
    rewrite last_last.
    change (N.eqb slash slash) with true. cbv iota.
    now rewrite <- app_assoc.
Qed.

Lemma path_join_plain_module_witness :
  path_join (lit "Lecture 1") [] = lit "Lecture 1" /\
  path_join (lit "Lecture 1") [slash] = lit "Lecture 1" ++ [slash] /\
  (forall folder,
      plain_segment folder ->
      path_join (lit "Lecture 1") (slash :: folder ++ [slash])
      = lit "Lecture 1" ++ slash :: folder ++ [slash]).
Proof.
  apply (@path_join_plain_module (lit "Lecture 1")).
  repeat split; try discriminate.
  vm_compute. intuition discriminate.
Defined.

(** ** Display names, continued *)

Lemma course_shape_tail d n x z :
  course_shape d n x ++ z
  = d ++ 32%N :: 45%N :: 32%N :: n ++ 32%N :: 40%N :: x ++ 41%N :: z.
Proof.
  unfold course_shape. rewrite <- !app_assoc. reflexivity.
Qed.

Lemma match_at_shape_tail d n x z :
  d <> [] -> all_digits d = true ->
  n <> [] -> one_line n = true ->
  x <> [] -> one_line x = true ->
  has_space_paren (x ++ 41%N :: z) = false ->
  match_at course_re (course_shape d n x ++ z) = Some n.
Proof.
  intros Hd Hdd Hn Hnl Hx Hxl Hsp.
  rewrite course_shape_tail.
  unfold match_at, course_re.
  cbn [before group after match_items].
  apply plus_loop_longest; [exact Hd|exact Hdd|reflexivity|].
  cbv beta iota. change (cmatch (CLit 32) 32%N) with true.
  change (cmatch (CLit 45) 45%N) with true. cbv iota.
  apply plus_loop_longest; [exact Hn|exact Hnl| |].
  - apply plus_loop_none. intros u t Hu Ht.
    destruct t as [|a [|b t]]; try reflexivity.
    { destruct (cmatch (CLit 32) a); reflexivity. }
    destruct (cmatch (CLit 32) a) eqn:Ea; [|reflexivity].
    destruct (cmatch (CLit 40) b) eqn:Eb; [|reflexivity].
    exfalso. simpl in Ea, Eb. apply N.eqb_eq in Ea, Eb. subst a b.
    destruct u as [|u0 [|u1 u]]; [contradiction| |].
    + inversion Ht.
    + inversion Ht as [[H0 H1 H2]].
      rewrite H2, has_space_paren_app in Hsp. discriminate.
  - cbv beta iota. change (cmatch (CLit 32) 32%N) with true.
    change (cmatch (CLit 40) 40%N) with true. cbv iota.
    rewrite firstn_cut.
    apply plus_loop_some; [|exact Hx|exact Hxl|reflexivity].
    intros y r' Hy. destruct y as [|c y]; [discriminate|].
    destruct (cmatch (CLit 41) c); [|discriminate].
    now inversion Hy.
Qed.

Lemma match_at_needs_digit c s :
  is_digit c = false -> match_at course_re (c :: s) = None.
Proof.
  intros Hc. unfold match_at, course_re. cbn [before match_items plus_loop].
  change (cmatch CDigit c) with (is_digit c). now rewrite Hc.
Qed.

Lemma str_match_skips p s :
  no_digit p = true ->
  str_match course_re (p ++ s) = str_match course_re s.
Proof.
  induction p as [|c p IH]; intros Hp; [reflexivity|].
  simpl in Hp. apply andb_true_iff in Hp. destruct Hp as [Hc Hp].
  apply negb_true_iff in Hc.
  cbn [app str_match]. rewrite (@match_at_needs_digit c (p ++ s) Hc). now apply IH.
Qed.

(** X22.  The pattern is looked for anywhere in the display name: text in
    front of the digits that holds no digit, and text behind the closing
    parenthesis, are dropped together with the digits and the suffix; the
    name between [" - "] and [" ("] is what remains, provided no further
    space and opening parenthesis follows inside or behind the suffix. *)
Theorem normalize_name_unanchored p d n x z :
  no_digit p = true ->
  d <> [] -> all_digits d = true ->
  n <> [] -> one_line n = true ->
  x <> [] -> one_line x = true ->
  has_space_paren (x ++ 41%N :: z) = false ->
  normalize_name (p ++ course_shape d n x ++ z) = n.
Proof.
  intros Hp Hd Hdd Hn Hnl Hx Hxl Hsp. unfold normalize_name.
  rewrite str_match_skips by exact Hp.
  rewrite (str_match_here course_re (course_shape d n x ++ z) (g := n));
    [reflexivity|].
  now apply match_at_shape_tail.
Qed.

Lemma normalize_name_unanchored_witness :
  normalize_name (lit "AA " ++ course_shape (lit "054307") (lit "ANALISI") (lit "ROSSI")
                  ++ lit " - 2023")
  = lit "ANALISI".
Proof.
  apply (@normalize_name_unanchored (lit "AA ") (lit "054307") (lit "ANALISI")
           (lit "ROSSI") (lit " - 2023"));
    try reflexivity; discriminate.
Defined.

(** What [match_at] captures is the name of the shape it found. *)
Lemma match_at_capture s g :
  match_at course_re s = Some g ->
  exists d x z,
    d <> [] /\ all_digits d = true /\
    g <> [] /\ one_line g = true /\
    x <> [] /\ one_line x = true /\
    s = course_shape d g x ++ z.
Proof.
  unfold match_at, course_re. cbn [before group after].
  intros H.
  rewrite match_items_plus in H.
  apply plus_loop_sound in H. destruct H as (d & y & Hd & Hdd & -> & H).
  apply match_one_lit in H. destruct H as (y1 & -> & H).
  apply match_one_lit in H. destruct H as (y2 & -> & H).
  apply match_one_lit in H. destruct H as (r & -> & H).
  rewrite match_items_nil, match_items_plus in H.
  apply plus_loop_sound in H. destruct H as (n & t & Hn & Hnl & -> & H).
  rewrite match_items_nil in H.
  apply match_one_lit in H. destruct H as (t1 & -> & H).
  apply match_one_lit in H. destruct H as (t2 & -> & H).
  rewrite match_items_plus in H.
  apply plus_loop_sound in H. destruct H as (x & y & Hx & Hxl & -> & H).
  apply match_one_lit in H. destruct H as (z & -> & H).
  rewrite match_items_nil, firstn_cut in H. inversion H; subst g.
  exists d, x, z. repeat split; auto.
  unfold course_shape. rewrite <- !app_assoc. reflexivity.
Qed.

Lemma str_match_capture s g :
  str_match course_re s = Some g ->
  exists p d x z,
    d <> [] /\ all_digits d = true /\
    g <> [] /\ one_line g = true /\
    x <> [] /\ one_line x = true /\
    s = p ++ course_shape d g x ++ z.
Proof.
  induction s as [|c s IH]; simpl.
  - discriminate.
  - destruct (match_at course_re (c :: s)) as [g'|] eqn:E.
    + intros H. inversion H; subst g'. apply match_at_capture in E.
      destruct E as (d & x & z & E). exists [], d, x, z. exact E.
    + intros H. apply IH in H.
      destruct H as (p & d & x & z & H1 & H2 & H3 & H4 & H5 & H6 & ->).
      exists (c :: p), d, x, z. repeat split; auto.
Qed.

(** X23.  Normalizing never invents text: the normalized name is either
    the display name itself, or a non-empty stretch of it that holds no line
    terminator and is framed by digits and [" - "] in front and by a
    parenthesized suffix behind, so that it is at least eight characters
    shorter than the display name. *)
Theorem normalize_name_is_a_stretch s :
  normalize_name s = s \/
  exists p d x z,
    d <> [] /\ all_digits d = true /\
    normalize_name s <> [] /\ one_line (normalize_name s) = true /\
    x <> [] /\
    s = p ++ course_shape d (normalize_name s) x ++ z /\
    length (normalize_name s) + 8 <= length s.
Proof.
  unfold normalize_name.
  destruct (str_match course_re s) as [g|] eqn:E; [|left; reflexivity].
  right. apply str_match_capture in E.
  destruct E as (p & d & x & z & Hd & Hdd & Hg & Hgl & Hx & Hxl & Hs).
  exists p, d, x, z. repeat split; auto.
  rewrite Hs. unfold course_shape. rewrite !length_app. simpl.
  destruct d; [contradiction|]. destruct x; [contradiction|]. simpl. lia.
Qed.

Lemma pattern_needs s :
  pattern_occurs s ->
  (exists c, In c s /\ is_digit c = true) /\ In 40%N s /\ In 41%N s /\ In 45%N s.
Proof.
  intros (p & d & n & x & z & Hd & Hdd & _ & _ & _ & _ & ->).
  unfold course_shape. repeat split.
  - destruct d as [|c d]; [contradiction|].
    simpl in Hdd. apply andb_true_iff in Hdd. destruct Hdd as [Hc _].
    exists c. split; [|exact Hc].
    apply in_or_app. right. apply in_or_app. left. now left.
  - apply in_or_app. right. apply in_or_app. left.
    apply in_or_app. right. apply in_or_app. right.
    apply in_or_app. right. apply in_or_app. left. right. now left.
  - apply in_or_app. right. apply in_or_app. left.
    apply in_or_app. right. apply in_or_app. right.
    apply in_or_app. right. apply in_or_app. right.
    apply in_or_app. right. now left.
  - apply in_or_app. right. apply in_or_app. left.
    apply in_or_app. right. apply in_or_app. left. right. now left.
Qed.

(** X24.  A display name with no digit in it, or with no opening
    parenthesis, no closing parenthesis or no hyphen, is never altered. *)
Theorem normalize_name_keeps_plain_names s :
  no_digit s = true \/ ~ In 40%N s \/ ~ In 41%N s \/ ~ In 45%N s ->
  normalize_name s = s.
Proof.
  intros H. apply normalize_name_other. intros Hocc.
  apply pattern_needs in Hocc.
  destruct Hocc as ((c & Hin & Hc) & H40 & H41 & H45).
  destruct H as [H|[H|[H|H]]]; try contradiction.
  unfold no_digit in H. rewrite forallb_forall in H.
  specialize (H c Hin). rewrite Hc in H. discriminate.
Qed.

Lemma normalize_name_keeps_plain_names_witness :
  normalize_name (lit "Systems Programming (SP)") = lit "Systems Programming (SP)".
Proof.
  apply (@normalize_name_keeps_plain_names (lit "Systems Programming (SP)")).
  left. reflexivity.
Defined.

(** * The main process *)

Lemma str_eqb_sym a b : str_eqb a b = str_eqb b a.
Proof.
  destruct (str_eqb a b) eqn:E.
  - apply str_eqb_eq in E. subst. symmetry. apply str_eqb_refl.
  - destruct (str_eqb b a) eqn:E'; [|reflexivity].
    apply str_eqb_eq in E'. subst. now rewrite str_eqb_refl in E.
Qed.

Lemma str_eqb_trans_false k k1 k2 :
  str_eqb k k1 = true -> str_eqb k2 k1 = false -> str_eqb k k2 = false.
Proof.
  intros H1 H2. apply str_eqb_eq in H1. subst k1.
  now rewrite str_eqb_sym.
Qed.

Lemma lookup_set_prop k k' v o :
  lookup k (set_prop k' v o) = if str_eqb k k' then v else lookup k o.
Proof.
  induction o as [|[k1 v1] rest IH]; simpl; [reflexivity|].
  destruct (str_eqb k' k1) eqn:E1; simpl.
  - apply str_eqb_eq in E1. subst k1.
    destruct (str_eqb k k'); reflexivity.
  - rewrite IH. destruct (str_eqb k k1) eqn:E2; [|reflexivity].
    now rewrite (@str_eqb_trans_false k k1 k' E2 E1).
Qed.

Lemma has_key_cons k k1 v1 o :
  has_key k ((k1, v1) :: o) = str_eqb k k1 || has_key k o.
Proof. reflexivity. Qed.

Lemma has_key_set_prop k k' v o :
  has_key k (set_prop k' v o) = str_eqb k k' || has_key k o.
Proof.
  induction o as [|[k1 v1] rest IH]; cbn [set_prop].
  - reflexivity.
  - destruct (str_eqb k' k1) eqn:E1.
    + apply str_eqb_eq in E1. subst k1.
      rewrite !has_key_cons. destruct (str_eqb k k'); reflexivity.
    + rewrite !has_key_cons, IH.
      destruct (str_eqb k k'), (str_eqb k k1); reflexivity.
Qed.

Lemma lookup_without_key k o : has_key k o = false -> lookup k o = VUndefined.
Proof.
  induction o as [|[k1 v1] rest IH]; simpl; [reflexivity|].
  destruct (str_eqb k k1); [discriminate|]. exact IH.
Qed.

Lemma has_key_in k o : has_key k o = true <-> In k (map fst o).
Proof.
  unfold has_key. rewrite existsb_exists. split.
  - intros ([k1 v1] & Hin & He). apply str_eqb_eq in He. subst.
    now apply (in_map fst) in Hin.
  - intros Hin. apply in_map_iff in Hin. destruct Hin as ([k1 v1] & <- & Hin).
    exists (k1, v1). split; [exact Hin|apply str_eqb_refl].
Qed.

Lemma distinct_keys_NoDup o : distinct_keys o = true -> NoDup (map fst o).
Proof.
  induction o as [|[k v] rest IH]; simpl; [constructor|].
  intros H. apply andb_true_iff in H. destruct H as [Hk Hrest].
  constructor; [|exact (IH Hrest)].
  intros Hin. apply has_key_in in Hin. rewrite Hin in Hk. discriminate.
Qed.

Lemma lookup_spread k source :
  NoDup (map fst source) ->
  forall target,
    lookup k (spread target source) =
    if has_key k source then lookup k source else lookup k target.
Proof.
  unfold spread.
  induction source as [|[k1 v1] rest IH]; intros Hnd target; [reflexivity|].
  inversion Hnd as [|? ? Hnot Hnd']; subst.
  cbn [fold_left fst snd]. rewrite IH by exact Hnd'.
  cbn [has_key existsb lookup fst]. fold (has_key k rest).
  rewrite lookup_set_prop.
  destruct (has_key k rest) eqn:Hk.
  - destruct (str_eqb k k1) eqn:E; [|now rewrite orb_false_l].
    apply str_eqb_eq in E. subst k1. apply has_key_in in Hk. contradiction.
  - rewrite orb_false_r. destruct (str_eqb k k1); reflexivity.
Qed.

Lemma has_key_spread k source :
  forall target,
    has_key k (spread target source) = has_key k target || has_key k source.
Proof.
  unfold spread.
  induction source as [|[k1 v1] rest IH]; intros target.
  - simpl. now rewrite orb_false_r.
  - cbn [fold_left fst snd]. rewrite IH, has_key_set_prop, has_key_cons.
    destruct (str_eqb k k1), (has_key k target), (has_key k rest); reflexivity.
Qed.

Lemma lookup_delete_prop k k' o :
  lookup k (delete_prop k' o) = if str_eqb k k' then VUndefined else lookup k o.
Proof.
  unfold delete_prop.
  induction o as [|[k1 v1] rest IH]; simpl.
  - destruct (str_eqb k k'); reflexivity.
  - destruct (str_eqb k' k1) eqn:E1; simpl.
    + rewrite IH. destruct (str_eqb k k') eqn:E; [reflexivity|].
      apply str_eqb_eq in E1. subst k1. now rewrite E.
    + rewrite IH. destruct (str_eqb k k1) eqn:E2; [|reflexivity].
      now rewrite (@str_eqb_trans_false k k1 k' E2 E1).
Qed.

Lemma has_key_delete_prop k k' o :
  has_key k (delete_prop k' o) = negb (str_eqb k k') && has_key k o.
Proof.
  unfold delete_prop.
  induction o as [|[k1 v1] rest IH]; cbn [filter fst].
  - simpl. now rewrite andb_false_r.
  - destruct (str_eqb k' k1) eqn:E1; cbn [negb].
    + rewrite IH, has_key_cons. apply str_eqb_eq in E1. subst k1.
      destruct (str_eqb k k'); reflexivity.
    + rewrite !has_key_cons, IH. destruct (str_eqb k k1) eqn:E2.
      * now rewrite (@str_eqb_trans_false k k1 k' E2 E1).
      * reflexivity.
Qed.

(** X25.  The reply to ['settings'] is the stored settings without
    [autosyncEnabled], [downloadPath] and [autosyncInterval]: those three
    are not properties of the reply, and every other property is there with
    its stored value. *)
Theorem settings_handler_hides_three stored k :
  distinct_keys stored = true ->
  has_key k (settings_handler stored) = negb (unmanaged k) && has_key k stored /\
  lookup k (settings_handler stored) =
  if unmanaged k then VUndefined else lookup k stored.
Proof.
  intros Hd. pose proof (distinct_keys_NoDup _ Hd) as Hnd.
  unfold settings_handler. cbv zeta. split.
  - rewrite !has_key_delete_prop, has_key_spread. unfold unmanaged.
    cbn [has_key existsb orb].
    destruct (str_eqb k (lit "autosyncEnabled")),
             (str_eqb k (lit "downloadPath")),
             (str_eqb k (lit "autosyncInterval")); reflexivity.
  - rewrite !lookup_delete_prop, lookup_spread by exact Hnd. unfold unmanaged.
    destruct (str_eqb k (lit "autosyncEnabled")),
             (str_eqb k (lit "downloadPath")),
             (str_eqb k (lit "autosyncInterval")); try reflexivity.
    destruct (has_key k stored) eqn:Hk; [reflexivity|].
    symmetry. now apply lookup_without_key.
Qed.

Lemma settings_handler_hides_three_witness :
  has_key (lit "downloadPath") (settings_handler stored_settings)
  = negb (unmanaged (lit "downloadPath")) && has_key (lit "downloadPath") stored_settings /\
  lookup (lit "downloadPath") (settings_handler stored_settings) =
  if unmanaged (lit "downloadPath") then VUndefined
  else lookup (lit "downloadPath") stored_settings.
Proof.
  apply (@settings_handler_hides_three stored_settings (lit "downloadPath")).
  reflexivity.
Defined.

(** X26.  ['set-settings'] merges key by key: a setting that the new
    settings mention takes the new value (even when that value is
    [undefined]), every other setting keeps its stored value. *)
Theorem on_set_settings_merges sh newSettings k :
  distinct_keys (settings sh) = true ->
  distinct_keys newSettings = true ->
  lookup k (settings (on_set_settings sh newSettings)) =
  if has_key k newSettings then lookup k newSettings
  else lookup k (settings sh).
Proof.
  intros Hs Hn.
  apply distinct_keys_NoDup in Hs. apply distinct_keys_NoDup in Hn.
  assert (Hm : settings (on_set_settings sh newSettings)
               = spread (spread [] (settings sh)) newSettings).
  { unfold on_set_settings. cbv zeta.
    destruct ((negb _ || negb _) && tray sh); [reflexivity|].
    destruct (_ && _ && negb (tray sh)); reflexivity. }
  rewrite Hm, lookup_spread by exact Hn.
  destruct (has_key k newSettings); [reflexivity|].
  rewrite lookup_spread by exact Hs.
  destruct (has_key k (settings sh)) eqn:Hk; [reflexivity|].
  symmetry. now apply lookup_without_key.
Qed.

Lemma on_set_settings_merges_witness :
  lookup (lit "trayIcon")
    (settings (on_set_settings (on_ready None stored_settings)
                 [(lit "trayIcon", VBool true)]))
  = if has_key (lit "trayIcon") [(lit "trayIcon", VBool true)]
    then lookup (lit "trayIcon") [(lit "trayIcon", VBool true)]
    else lookup (lit "trayIcon") (settings (on_ready None stored_settings)).
Proof.
  apply (@on_set_settings_merges (on_ready None stored_settings)
           [(lit "trayIcon", VBool true)] (lit "trayIcon")).
  - reflexivity.
  - reflexivity.
Defined.

Lemma forallb_exists_false {A} (f : A -> bool) l :
  forallb f l = false -> exists x, In x l /\ f x = false.
Proof.
  induction l as [|a l IH]; simpl; [discriminate|].
  destruct (f a) eqn:E.
  - intros H. destruct (IH H) as (x & Hin & Hx). exists x. auto.
  - intros _. exists a. auto.
Qed.

Lemma fold_enabled items :
  forall d, fold_left (fun d i => enabled i && d) items d = d && forallb enabled items.
Proof.
  induction items as [|i items IH]; intros d; simpl.
  - now rewrite andb_true_r.
  - rewrite IH. destruct (enabled i), d; reflexivity.
Qed.

(** X27.  At start-up a launch item counts as disabled exactly when launch
    items are reported and at least one of them is not enabled (no report,
    or an empty one, disables nothing); and exactly then [openAtLogin] is
    set to [false] in the settings, which are otherwise left as stored. *)
Theorem on_ready_open_at_login launchItems stored :
  (launch_disabled launchItems = true <->
   exists items i,
     launchItems = Some items /\ In i items /\ enabled i = false) /\
  (forall k,
      lookup k (settings (on_ready launchItems stored)) =
      if launch_disabled launchItems && str_eqb k (lit "openAtLogin")
      then VBool false
      else lookup k stored).
Proof.
  split.
  - unfold launch_disabled. destruct launchItems as [items|].
    + rewrite fold_enabled. cbn [andb]. rewrite negb_true_iff. split.
      * intros H.
        destruct (@forallb_exists_false _ enabled items H) as (i & Hin & Hi).
        exists items, i. auto.
      * intros (items' & i & E & Hin & Hi). inversion E; subst items'.
        destruct (forallb enabled items) eqn:F; [|reflexivity].
        rewrite forallb_forall in F. rewrite (F i Hin) in Hi. discriminate.
    + split; [discriminate|]. intros (items & i & E & _). discriminate.
  - intros k. unfold on_ready. cbv zeta. cbn [settings].
    destruct (launch_disabled launchItems); [|reflexivity].
    rewrite lookup_set_prop. reflexivity.
Qed.

Lemma replay_tray_app evs1 :
  forall t evs2,
    replay_tray t (evs1 ++ evs2) =
    match replay_tray t evs1 with
    | Some t' => replay_tray t' evs2
    | None => None
    end.
Proof.
  induction evs1 as [|ev evs1 IH]; intros t evs2; [reflexivity|].
  destruct ev, t; simpl; auto.
Qed.

Lemma wants_tray_open_at_login v stored :
  wants_tray (set_prop (lit "openAtLogin") v stored) = wants_tray stored.
Proof.
  unfold wants_tray. rewrite !lookup_set_prop. reflexivity.
Qed.

Lemma on_ready_consistent launchItems stored :
  tray_consistent (on_ready launchItems stored).
Proof.
  unfold tray_consistent, on_ready. cbv zeta. cbn [settings tray tray_events].
  split.
  - destruct (launch_disabled launchItems); [|reflexivity].
    now rewrite wants_tray_open_at_login.
  - destruct (wants_tray stored); reflexivity.
Qed.

Lemma on_set_settings_consistent sh newSettings :
  replay_tray false (tray_events sh) = Some (tray sh) ->
  tray_consistent (on_set_settings sh newSettings).
Proof.
  intros Hr. unfold tray_consistent, on_set_settings, wants_tray. cbv zeta.
  destruct (truthy (lookup (lit "keepOpenInBackground")
                      (spread (spread [] (settings sh)) newSettings))) eqn:Ek;
    destruct (truthy (lookup (lit "trayIcon")
                        (spread (spread [] (settings sh)) newSettings))) eqn:Et;
    destruct (tray sh) eqn:Etray;
    cbn [negb orb andb settings tray tray_events];
    rewrite ?Ek, ?Et; cbn [andb];
    rewrite ?replay_tray_app, ?Hr; split; reflexivity.
Qed.

Lemma fold_on_set_settings_consistent updates :
  forall sh,
    tray_consistent sh ->
    tray_consistent (fold_left on_set_settings updates sh).
Proof.
  induction updates as [|u updates IH]; intros sh Hsh; [exact Hsh|].
  simpl. apply IH. apply on_set_settings_consistent. apply Hsh.
Qed.

(** X28.  After start-up and any number of settings updates, a tray icon
    exists exactly when the current settings have both
    [keepOpenInBackground] and [trayIcon] set; and on the way the tray was
    never set up while one existed nor destroyed while none did. *)
Theorem tray_follows_settings launchItems stored updates :
  let sh := fold_left on_set_settings updates (on_ready launchItems stored) in
  tray sh = wants_tray (settings sh) /\
  replay_tray false (tray_events sh) = Some (tray sh).
Proof.
  cbv zeta. apply fold_on_set_settings_consistent. apply on_ready_consistent.
Qed.

Example tray_appears_and_goes :
  let sh := fold_left on_set_settings
              [[(lit "trayIcon", VBool true)];
               [(lit "language", VStr (lit "en"))];
               [(lit "keepOpenInBackground", VBool false)]]
              (on_ready None stored_settings) in
  tray sh = false /\ tray_events sh = [TraySetUp; TrayDestroyed].
Proof. vm_compute. split; reflexivity. Qed.
